(** * Cinema expert agent: the OMDB client and the call_omdb_api_defaults tools

    A shallow embedding of [src/api.py] and [src/tools.py].

    - Python dictionaries are finite maps ([gmap string _]).
    - Text is a [string] of UTF-8 bytes.
    - The network, [time.sleep] and the module-level dataset are explicit:
      a computation threads the chronological trace of the effects it has
      performed, and the remote server is an oracle that answers the n-th
      request of the session.
    - An exception is a value: a call returns [Ok v] or [Raise e]. *)

From Stdlib Require Import ZArith String Ascii List Lia.
From stdpp Require Import base option list gmap strings fin_maps pretty.

(** ** Python strings *)

(** [c.lower()] on one byte: only the ASCII capitals move.  Python lowers
    every cased character, but a character outside ASCII stays outside
    ASCII, except U+212A (which becomes "k") and U+0130 (which becomes "i"
    followed by U+0307); neither can take part in an occurrence of "limit",
    "quota" or "not found", so the three tests of [call_omdb_api] give
    here what they give in Python. *)
Definition ascii_lower (c : ascii) : ascii :=
  let n := N_of_ascii c in
  if (65 <=? n)%N && (n <=? 90)%N then ascii_of_N (n + 32) else c.

Fixpoint str_lower (s : string) : string :=
  match s with
  | EmptyString => EmptyString
  | String c rest => String (ascii_lower c) (str_lower rest)
  end.

(** [needle in hay] *)
Fixpoint str_in (needle hay : string) : bool :=
  match hay with
  | EmptyString => String.prefix needle EmptyString
  | String _ rest => String.prefix needle hay || str_in needle rest
  end.

(** [bool(s)] for an [Optional[str]] argument: [None] and [""] are falsy. *)
Definition truthy (s : option string) : bool :=
  match s with
  | Some (String _ _) => true
  | _ => false
  end.

(** ** Results and exceptions *)

Inductive result (E A : Type) : Type :=
| Ok (value : A)
| Raise (exn : E).
Arguments Ok {E A} value.
Arguments Raise {E A} exn.

(** The raise sites of [call_omdb_api].  Python has the single class
    [OMDBAPIError] carrying a message; each site builds its own message, and
    [str_OMDBAPIError] gives it back. *)
Inductive OMDBAPIError : Type :=
| ConfigurationError
| RateLimited (error_message : string)
| ApiError (error_message : string)
| Timeout
| Network (e : string)
| Exhausted.

Definition str_OMDBAPIError (e : OMDBAPIError) : string :=
  match e with
  | ConfigurationError =>
      "OMDB API key is not configured. Please set OMDB_API_KEY in .env file"
  | RateLimited error_message => "Rate limit exceeded: " +:+ error_message
  | ApiError error_message => "OMDB API error: " +:+ error_message
  | Timeout => "Request timeout: OMDB API did not respond in time"
  | Network e => "Network error: " +:+ e
  | Exhausted => "Failed to connect to OMDB API after multiple retries"
  end.

(** ** The remote service *)

(** A decoded OMDB answer: a JSON object whose scalar members are strings;
    the member [Search], when present, is an array of flat objects. *)
Record Payload : Type := {
  fields : gmap string string;
  Search : option (list (gmap string string))
}.

(** [data.get(key, default)] on a scalar member. *)
Definition get (data : Payload) (key default_ : string) : string :=
  default default_ (fields data !! key).

(** What [r.get(...)], [raise_for_status()] and [response.json()] do on one
    attempt: decode a payload, raise [requests.exceptions.Timeout], or raise
    another [RequestException] whose [str] is [e]. *)
Inductive Transport : Type :=
| Json (data : Payload)
| TransportTimeout
| RequestException (e : string).

(** The server: the answer to the n-th GET of the session (n counts from 0)
    given its query parameters. *)
Definition Server : Type := nat → gmap string string → Transport.

Section Effects.
(** [Delay] is the type of the argument of [time.sleep], a Python float. *)
Context {Delay : Type}.

Inductive Event : Type :=
| EvGet (params : gmap string string)
| EvSleep (seconds : Delay).

Definition is_get (ev : Event) : bool :=
  match ev with EvGet _ => true | EvSleep _ => false end.

Definition count_gets (tr : list Event) : nat :=
  length (filter (λ ev, is_get ev = true) tr).

(** the arguments of the [time.sleep] calls of a trace, in order *)
Fixpoint sleeps (tr : list Event) : list Delay :=
  match tr with
  | [] => []
  | EvSleep d :: tr => d :: sleeps tr
  | EvGet _ :: tr => sleeps tr
  end.

(** A computation reads the trace so far and extends it. *)
Definition IO (A : Type) : Type := list Event → A * list Event.

Definition io_ret {A} (a : A) : IO A := λ tr, (a, tr).
Definition io_bind {A B} (m : IO A) (f : A → IO B) : IO B :=
  λ tr, let '(a, tr') := m tr in f a tr'.

Definition http_get (net : Server) (params : gmap string string)
  : IO Transport :=
  λ tr, (net (count_gets tr) params, tr ++ [EvGet params]).

Definition sleep (seconds : Delay) : IO unit :=
  λ tr, (tt, tr ++ [EvSleep seconds]).
End Effects.
Arguments Event Delay : clear implicits.
Arguments IO Delay A : clear implicits.

Declare Scope io_scope.
Delimit Scope io_scope with io.
Notation "x <- m ;; k" := (io_bind m (λ x, k))
  (at level 100, m at next level, right associativity) : io_scope.
Notation "m ;;; k" := (io_bind m (λ _, k))
  (at level 100, right associativity) : io_scope.

(** ** [api.py] *)

Section Api.
Context {Delay : Type}.
(** [scale d k] is the product [d * k] of a float and an int. *)
Variable scale : Delay → Z → Delay.
Variable OMDB_API_KEY : string.
Variable net : Server.

Local Open Scope io_scope.

(** The body of [for attempt in range(max_retries)]: [todo] iterations
    remain and the loop variable is [attempt].  [continue] is the
    recursive call; leaving the loop reaches the final [raise]. *)
Fixpoint attempts (_params : gmap string string) (max_retries : Z)
    (retry_delay : Delay) (todo : nat) (attempt : Z)
  : IO Delay (result OMDBAPIError (option Payload)) :=
  match todo with
  | O => io_ret (Raise Exhausted)
  | S todo =>
      response <- http_get net _params ;;
      match response with
      | Json data =>
          if bool_decide (fields data !! "Response" = Some "False") then
            let error_message := get data "Error" "Unknown error" in
            if str_in "limit" (str_lower error_message)
               || str_in "quota" (str_lower error_message)
            then
              if bool_decide (attempt < max_retries - 1)%Z then
                sleep (scale retry_delay (attempt + 1)) ;;;
                attempts _params max_retries retry_delay todo (attempt + 1)
              else io_ret (Raise (RateLimited error_message))
            else if str_in "not found" (str_lower error_message) then
              io_ret (Ok None)
            else io_ret (Raise (ApiError error_message))
          else io_ret (Ok (Some data))
      | TransportTimeout =>
          if bool_decide (attempt < max_retries - 1)%Z then
            sleep retry_delay ;;;
            attempts _params max_retries retry_delay todo (attempt + 1)
          else io_ret (Raise Timeout)
      | RequestException e =>
          if bool_decide (attempt < max_retries - 1)%Z then
            sleep retry_delay ;;;
            attempts _params max_retries retry_delay todo (attempt + 1)
          else io_ret (Raise (Network e))
      end
  end.

Definition call_omdb_api (params : gmap string string) (max_retries : Z)
    (retry_delay : Delay)
  : IO Delay (result OMDBAPIError (option Payload)) :=
  if bool_decide (OMDB_API_KEY = "") then io_ret (Raise ConfigurationError)
  else
    let _params := params ∪ {["apikey" := OMDB_API_KEY]} in
    attempts _params max_retries retry_delay (Z.to_nat max_retries) 0.
End Api.

(** ** pandas, as far as [tools.py] uses it *)

(** Exceptions that can leave a tool. *)
Inductive PyExn : Type :=
| OMDBError (e : OMDBAPIError)
| KeyError (label : string)
| ReError (msg : string)
| TypeError (msg : string)
| AttributeError (msg : string)
| OtherError (msg : string).

Definition str_PyExn (e : PyExn) : string :=
  match e with
  | OMDBError e => str_OMDBAPIError e
  | KeyError label => "'" +:+ label +:+ "'"
  | ReError msg | TypeError msg | AttributeError msg | OtherError msg => msg
  end.

(** Sequencing: an exception stops the computation. *)
Definition result_bind {E A B} (m : result E A) (f : A → result E B)
  : result E B :=
  match m with
  | Ok a => f a
  | Raise e => Raise e
  end.

Declare Scope result_scope.
Delimit Scope result_scope with result.
Notation "x <-! m ;; k" := (result_bind m (λ x, k))
  (at level 100, m at next level, right associativity) : result_scope.

Fixpoint result_map {E A B} (f : A → result E B) (l : list A)
  : result E (list B) :=
  match l with
  | [] => Ok []
  | a :: l => (b <-! f a ;; bs <-! result_map f l ;; Ok (b :: bs))%result
  end.

Definition nl : string := String (ascii_of_nat 10) EmptyString.

Section Pandas.
(** [Float] stands for Python's float; [repr_float] is its [str]. *)
Context {Float : Type}.
Local Open Scope result_scope.
Variable repr_float : Float → string.
Variable float_ge : Float → Float → bool.

Inductive Cell : Type :=
| CStr (s : string)
| CFloat (x : Float)
| CNaN.

(** what an f-string prints for a cell *)
Definition str_Cell (c : Cell) : string :=
  match c with
  | CStr s => s
  | CFloat x => repr_float x
  | CNaN => "nan"
  end.

(** The dtype of a column.  [read_csv] gives [object] to a column in which
    it finds text, and a numeric dtype, here [float64], to a column whose
    cells are all numbers or empty. *)
Inductive Dtype : Type := object | float64.

(** A frame: its column labels, the dtype of each column, and its rows in
    index order.  A row maps labels to cells; a label of the frame that a
    row does not carry is an empty CSV cell, which [read_csv] loads as
    NaN. *)
Record DataFrame : Type := {
  columns : list string;
  dtypes : string → Dtype;
  rows : list (gmap string Cell)
}.

Definition cell (row : gmap string Cell) (label : string) : Cell :=
  default CNaN (row !! label).

(** The row as a [Series]: labelled by the columns of its frame. *)
Definition series (frame : DataFrame) (row : gmap string Cell)
  : gmap string Cell :=
  list_to_map ((λ label, (label, cell row label)) <$> columns frame).

(** [row[label]] on a Series *)
Definition getitem (row : gmap string Cell) (label : string)
  : result PyExn Cell :=
  match row !! label with
  | Some c => Ok c
  | None => Raise (KeyError label)
  end.

(** [frame[label]]: the column, top to bottom *)
Definition column (frame : DataFrame) (label : string)
  : result PyExn (list Cell) :=
  if bool_decide (label ∈ columns frame) then
    Ok ((λ row, cell row label) <$> rows frame)
  else Raise (KeyError label).

(** [re.compile(pat, re.IGNORECASE)]: the error message of [re.error], or
    the test [pat.search(x) is not None]. *)
Variable re_compile : string → result string (string → bool).

Definition is_text (c : Cell) : bool :=
  match c with CStr _ => true | CFloat _ | CNaN => false end.

Definition is_number (c : Cell) : bool :=
  match c with CFloat _ => true | CStr _ | CNaN => false end.

Definition str_accessor_error : PyExn :=
  AttributeError "Can only use .str accessor with string values!".

(** [series.str]: pandas validates the column before any string method
    runs.  It refuses every column that is not of dtype [object], and an
    [object] column whose values, the empty cells apart, are all numbers;
    an [object] column that holds some text or nothing but empty cells is
    accepted. *)
Definition str_accessor (dtype : Dtype) (col : list Cell)
  : result PyExn (list Cell) :=
  match dtype with
  | object =>
      if existsb is_number col && negb (existsb is_text col)
      then Raise str_accessor_error
      else Ok col
  | float64 => Raise str_accessor_error
  end.

(** [frame[label].str.contains(pat, case=False, na=False)]: the column is
    looked up, then the accessor validates it, then [pat] is compiled as a
    regular expression ([regex=True] is the default) before any row is
    looked at; a cell that is not text counts as no match. *)
Definition str_contains (frame : DataFrame) (label pat : string)
  : result PyExn (list bool) :=
  col <-! column frame label ;;
  col <-! str_accessor (dtypes frame label) col ;;
  match re_compile pat with
  | Raise msg => Raise (ReError msg)
  | Ok search =>
      Ok ((λ c, match c with CStr s => search s | _ => false end) <$> col)
  end.

(** [frame[label] >= x] *)
Definition column_ge (frame : DataFrame) (label : string) (x : Float)
  : result PyExn (list bool) :=
  col <-! column frame label ;;
  result_map (λ c, match c with
             | CFloat y => Ok (float_ge y x)
             | CNaN => Ok false
             | CStr _ =>
                 Raise (TypeError
                   "'>=' not supported between instances of 'str' and 'float'")
             end) col.

(** [frame[mask]]: the selected rows; the columns keep their dtypes *)
Definition select (frame : DataFrame) (mask : list bool) : DataFrame :=
  {| columns := columns frame;
     dtypes := dtypes frame;
     rows := fst <$> filter (λ rb, snd rb = true) (zip (rows frame) mask) |}.

(** [frame.iterrows()] and [frame.iloc[0]] *)
Definition iterrows (frame : DataFrame) : list (gmap string Cell) :=
  series frame <$> rows frame.

Definition is_empty (frame : DataFrame) : bool :=
  match rows frame with [] => true | _ => false end.

(** The module-level [try: df = pd.read_csv(...) except Exception]: the
    value of the global [df] and what was printed. *)
Definition module_init (read_csv : result PyExn DataFrame)
  : option DataFrame * list string :=
  match read_csv with
  | Ok frame => (Some frame, [])
  | Raise e =>
      (None, ["Warning: Could not load CSV dataset: " +:+ str_PyExn e])
  end.
End Pandas.
Arguments Cell Float : clear implicits.
Arguments DataFrame Float : clear implicits.

(** ** [tools.py]: the formatters *)

Definition movie_info_lines (movie_data : Payload) : list string :=
  let title := get movie_data "Title" "N/A" in
  let year := get movie_data "Year" "N/A" in
  let rated := get movie_data "Rated" "N/A" in
  let released := get movie_data "Released" "N/A" in
  let runtime := get movie_data "Runtime" "N/A" in
  let genre := get movie_data "Genre" "N/A" in
  let director := get movie_data "Director" "N/A" in
  let actors := get movie_data "Actors" "N/A" in
  let plot := get movie_data "Plot" "N/A" in
  let language := get movie_data "Language" "N/A" in
  let country := get movie_data "Country" "N/A" in
  let awards := get movie_data "Awards" "N/A" in
  let imdb_rating := get movie_data "imdbRating" "N/A" in
  let imdb_votes := get movie_data "imdbVotes" "N/A" in
  [ "Название: " +:+ title;
    "Год: " +:+ year;
    "Рейтинг: " +:+ rated;
    "Дата выхода: " +:+ released;
    "Длительность: " +:+ runtime;
    "Жанр: " +:+ genre;
    "Режиссер: " +:+ director;
    "Актеры: " +:+ actors;
    "Описание: " +:+ plot;
    "Язык: " +:+ language;
    "Страна: " +:+ country;
    "Награды: " +:+ awards;
    "IMDb рейтинг: " +:+ imdb_rating +:+ "/10 (" +:+ imdb_votes
      +:+ " голосов)" ].

(** The f-string of [format_movie_info]: its thirteen lines joined by
    newlines. *)
Definition format_movie_info (movie_data : Payload) : string :=
  String.concat nl (movie_info_lines movie_data).

Section CsvFormatter.
Context {Float : Type}.
Variable repr_float : Float → string.
Local Open Scope result_scope.
Local Abbreviation str := (str_Cell repr_float).

(** The f-string evaluates its ten subscripts from left to right; the
    first label the row lacks raises [KeyError]. *)
Definition format_movie_from_csv (movie_row : gmap string (Cell Float))
  : result PyExn string :=
  series_title <-! getitem movie_row "Series_Title" ;;
  released_year <-! getitem movie_row "Released_Year" ;;
  imdb_rating <-! getitem movie_row "IMDB_Rating" ;;
  genre <-! getitem movie_row "Genre" ;;
  director <-! getitem movie_row "Director" ;;
  star1 <-! getitem movie_row "Star1" ;;
  star2 <-! getitem movie_row "Star2" ;;
  star3 <-! getitem movie_row "Star3" ;;
  star4 <-! getitem movie_row "Star4" ;;
  overview <-! getitem movie_row "Overview" ;;
  Ok (String.concat nl
    [ "Название: " +:+ str series_title;
      "Год: " +:+ str released_year;
      "Рейтинг IMDb: " +:+ str imdb_rating +:+ "/10";
      "Жанр: " +:+ str genre;
      "Режиссер: " +:+ str director;
      "Актеры: " +:+ str star1 +:+ ", " +:+ str star2 +:+ ", "
        +:+ str star3 +:+ ", " +:+ str star4;
      "Описание: " +:+ str overview;
      "";
      "(Источник: IMDb Top 1000 локальный датасет)" ]).

(** One line of the dataset listings:
    [f"{row['Series_Title']} ({row['Released_Year']}) - {row['IMDB_Rating']}/10"] *)
Definition rating_line (row : gmap string (Cell Float))
  : result PyExn string :=
  series_title <-! getitem row "Series_Title" ;;
  released_year <-! getitem row "Released_Year" ;;
  imdb_rating <-! getitem row "IMDB_Rating" ;;
  Ok (str series_title +:+ " (" +:+ str released_year +:+ ") - "
        +:+ str imdb_rating +:+ "/10").
End CsvFormatter.

(** [enumerate(l, start)] *)
Fixpoint enumerate {A} (l : list A) (start : nat) : list (nat * A) :=
  match l with
  | [] => []
  | a :: l => (start, a) :: enumerate l (S start)
  end.

(** the loop of [search_movies_list]: [output += f"{i}. {title} ({year}) - {movie_type}\n"] *)
Definition list_step (output : string) (im : nat * gmap string string)
  : string :=
  let '(i, movie) := im in
  let title := default "N/A" (movie !! "Title") in
  let year := default "N/A" (movie !! "Year") in
  let movie_type := default "N/A" (movie !! "Type") in
  output +:+ pretty i +:+ ". " +:+ title +:+ " (" +:+ year +:+ ") - "
    +:+ movie_type +:+ nl.

(** the loop of [search_movies_by_year_and_type]: [output += f"{i}. {title} ({year})\n"] *)
Definition year_type_step (output : string) (im : nat * gmap string string)
  : string :=
  let '(i, movie) := im in
  let title := default "N/A" (movie !! "Title") in
  let year := default "N/A" (movie !! "Year") in
  output +:+ pretty i +:+ ". " +:+ title +:+ " (" +:+ year +:+ ")" +:+ nl.

(** The two-column sections of [compare_two_movies], in source order: the
    heading, the member shown, and the text after the value. *)
Definition comparison_fields : list (string * string * string) :=
  [ ("Год выпуска", "Year", "");
    ("Жанр", "Genre", "");
    ("Режиссер", "Director", "");
    ("IMDb рейтинг", "imdbRating", "/10");
    ("Длительность", "Runtime", "");
    ("Актеры", "Actors", "");
    ("Награды", "Awards", "") ].

(** One bullet: [  • {result.get('Title', 'N/A')}: {result.get(key, 'N/A')}] *)
Definition bullet (result : Payload) (key suffix : string) : string :=
  "  • " +:+ get result "Title" "N/A" +:+ ": " +:+ get result key "N/A"
    +:+ suffix.

(** A comparison before it is laid out: the two titles of the head and, per
    section, the heading with the bullet of the first and of the second
    column. *)
Record Comparison : Type := {
  titles : string * string;
  sections : list (string * string * string)
}.

Definition comparison_of (result1 result2 : Payload) : Comparison :=
  {| titles := (get result1 "Title" "N/A", get result2 "Title" "N/A");
     sections :=
       (λ f, let '(heading, key, suffix) := f in
             (heading, bullet result1 key suffix, bullet result2 key suffix))
       <$> comparison_fields |}.

Definition render_section (s : string * string * string) : string :=
  let '(heading, first, second) := s in
  heading +:+ ":" +:+ nl +:+ first +:+ nl +:+ second.

Definition render_comparison (c : Comparison) : string :=
  "Сравнение фильмов:" +:+ nl +:+ nl
    +:+ "ФИЛЬМ 1: " +:+ fst (titles c) +:+ nl
    +:+ "ФИЛЬМ 2: " +:+ snd (titles c) +:+ nl +:+ nl
    +:+ String.concat (nl +:+ nl) (render_section <$> sections c).

(** exchange the two columns *)
Definition swap_columns (c : Comparison) : Comparison :=
  {| titles := (snd (titles c), fst (titles c));
     sections := (λ s, let '(heading, first, second) := s in
                       (heading, second, first)) <$> sections c |}.

(** The f-string of [compare_two_movies], as written. *)
Definition comparison_text (result1 result2 : Payload) : string :=
  let t1 := get result1 "Title" "N/A" in
  let t2 := get result2 "Title" "N/A" in
  "Сравнение фильмов:" +:+ nl
  +:+ nl
  +:+ "ФИЛЬМ 1: " +:+ t1 +:+ nl
  +:+ "ФИЛЬМ 2: " +:+ t2 +:+ nl
  +:+ nl
  +:+ "Год выпуска:" +:+ nl
  +:+ "  • " +:+ t1 +:+ ": " +:+ get result1 "Year" "N/A" +:+ nl
  +:+ "  • " +:+ t2 +:+ ": " +:+ get result2 "Year" "N/A" +:+ nl
  +:+ nl
  +:+ "Жанр:" +:+ nl
  +:+ "  • " +:+ t1 +:+ ": " +:+ get result1 "Genre" "N/A" +:+ nl
  +:+ "  • " +:+ t2 +:+ ": " +:+ get result2 "Genre" "N/A" +:+ nl
  +:+ nl
  +:+ "Режиссер:" +:+ nl
  +:+ "  • " +:+ t1 +:+ ": " +:+ get result1 "Director" "N/A" +:+ nl
  +:+ "  • " +:+ t2 +:+ ": " +:+ get result2 "Director" "N/A" +:+ nl
  +:+ nl
  +:+ "IMDb рейтинг:" +:+ nl
  +:+ "  • " +:+ t1 +:+ ": " +:+ get result1 "imdbRating" "N/A" +:+ "/10"
  +:+ nl
  +:+ "  • " +:+ t2 +:+ ": " +:+ get result2 "imdbRating" "N/A" +:+ "/10"
  +:+ nl
  +:+ nl
  +:+ "Длительность:" +:+ nl
  +:+ "  • " +:+ t1 +:+ ": " +:+ get result1 "Runtime" "N/A" +:+ nl
  +:+ "  • " +:+ t2 +:+ ": " +:+ get result2 "Runtime" "N/A" +:+ nl
  +:+ nl
  +:+ "Актеры:" +:+ nl
  +:+ "  • " +:+ t1 +:+ ": " +:+ get result1 "Actors" "N/A" +:+ nl
  +:+ "  • " +:+ t2 +:+ ": " +:+ get result2 "Actors" "N/A" +:+ nl
  +:+ nl
  +:+ "Награды:" +:+ nl
  +:+ "  • " +:+ t1 +:+ ": " +:+ get result1 "Awards" "N/A" +:+ nl
  +:+ "  • " +:+ t2 +:+ ": " +:+ get result2 "Awards" "N/A".

(** ** [tools.py]: the tools *)

Definition unavailable : string :=
  "Локальный датасет IMDb Top 1000 недоступен.".

Section Tools.
Context {Delay Float : Type}.
Variable scale : Delay → Z → Delay.
(** the default [retry_delay = 1.0] *)
Variable one_second : Delay.
Variable OMDB_API_KEY : string.
Variable net : Server.
Variable repr_float : Float → string.
Variable float_ge : Float → Float → bool.
Variable re_compile : string → result string (string → bool).
(** [frame.nlargest(n, label)] *)
Variable nlargest :
  Z → string → DataFrame Float → result PyExn (DataFrame Float).
(** the module-level global *)
Variable df : option (DataFrame Float).

(** [call_omdb_api(params)] with the default [max_retries = 3] *)
Definition call_omdb_api_defaults (params : gmap string string)
  : IO Delay (result OMDBAPIError (option Payload)) :=
  call_omdb_api scale OMDB_API_KEY net params 3 one_second.

Definition title_not_found (title : string) : string :=
  "Фильм '" +:+ title +:+ "' не найден ни в OMDB API, ни в локальном датасете IMDb Top 1000. Попробуйте использовать search_movies_list для поиска по частичному совпадению.".

(** The part of [search_movie_by_title] after the [try] block. *)
Definition csv_fallback (title : string) : result PyExn string :=
  match df with
  | Some frame =>
      (mask <-! str_contains re_compile frame "Series_Title" title ;;
       let result := select frame mask in
       match iterrows result with
       | movie :: _ => format_movie_from_csv repr_float movie
       | [] => Ok (title_not_found title)
       end)%result
  | None => Ok (title_not_found title)
  end.

Definition search_movie_by_title (title : string) (year : option string)
  : IO Delay (result PyExn string) :=
  (let params : gmap string string := {["t" := title]} in
   let params :=
     if truthy year then <["y" := default "" year]> params else params in
   outcome <- call_omdb_api_defaults params ;;
   match outcome with
   | Ok (Some result) => io_ret (Ok (format_movie_info result))
   | Ok None | Raise _ => io_ret (csv_fallback title)
   end)%io.

Definition search_movies_list (query : string) (year : option string)
  : IO Delay (result PyExn string) :=
  (let params : gmap string string := {["s" := query]} in
   let params :=
     if truthy year then <["y" := default "" year]> params else params in
   let not_found := "Фильмы по запросу '" +:+ query +:+ "' не найдены." in
   outcome <- call_omdb_api_defaults params ;;
   match outcome with
   | Raise e =>
       io_ret (Ok ("Ошибка при поиске фильмов: " +:+ str_OMDBAPIError e))
   | Ok None => io_ret (Ok not_found)
   | Ok (Some result) =>
       if bool_decide (fields result !! "totalResults" = Some "0") then
         io_ret (Ok not_found)
       else
         let movies := default [] (Search result) in
         match movies with
         | [] => io_ret (Ok not_found)
         | _ =>
             let output :=
               "Найдено "
               +:+ get result "totalResults" (pretty (length movies))
               +:+ " фильмов по запросу '" +:+ query +:+ "':" +:+ nl
               +:+ nl in
             let output :=
               fold_left list_step (enumerate (take 10 movies) 1) output in
             io_ret (Ok (output +:+ nl +:+ "Используйте search_movie_by_title с точным названием для получения подробной информации."))
         end
   end)%io.

Definition compare_two_movies (title1 title2 : string)
  : IO Delay (result PyExn string) :=
  (outcome1 <- call_omdb_api_defaults {["t" := title1]} ;;
   match outcome1 with
   | Raise e =>
       io_ret (Ok ("Ошибка при сравнении фильмов: " +:+ str_OMDBAPIError e))
   | Ok result1 =>
       outcome2 <- call_omdb_api_defaults {["t" := title2]} ;;
       match outcome2 with
       | Raise e =>
           io_ret
             (Ok ("Ошибка при сравнении фильмов: " +:+ str_OMDBAPIError e))
       | Ok result2 =>
           match result1, result2 with
           | None, _ =>
               io_ret (Ok ("Первый фильм '" +:+ title1 +:+ "' не найден."))
           | Some _, None =>
               io_ret (Ok ("Второй фильм '" +:+ title2 +:+ "' не найден."))
           | Some result1, Some result2 =>
               io_ret (Ok (comparison_text result1 result2))
           end
       end
   end)%io.

Definition get_movie_by_id (imdb_id : string)
  : IO Delay (result PyExn string) :=
  (outcome <- call_omdb_api_defaults {["i" := imdb_id]} ;;
   match outcome with
   | Raise e =>
       io_ret (Ok ("Ошибка при получении информации о фильме: "
                     +:+ str_OMDBAPIError e))
   | Ok None => io_ret (Ok ("Фильм с ID '" +:+ imdb_id +:+ "' не найден."))
   | Ok (Some result) => io_ret (Ok (format_movie_info result))
   end)%io.

Definition search_movies_by_year_and_type (query year movie_type : string)
  : IO Delay (result PyExn string) :=
  (let params : gmap string string :=
     <["type" := movie_type]> (<["y" := year]> {["s" := query]}) in
   outcome <- call_omdb_api_defaults params ;;
   match outcome with
   | Raise e => io_ret (Ok ("Ошибка при поиске: " +:+ str_OMDBAPIError e))
   | Ok None =>
       io_ret (Ok ("Фильмы по запросу '" +:+ query +:+ "' (" +:+ year
                     +:+ ", " +:+ movie_type +:+ ") не найдены."))
   | Ok (Some result) =>
       if bool_decide (fields result !! "totalResults" = Some "0") then
         io_ret (Ok ("Фильмы по запросу '" +:+ query +:+ "' (" +:+ year
                       +:+ ", " +:+ movie_type +:+ ") не найдены."))
       else
         let movies := default [] (Search result) in
         match movies with
         | [] =>
             io_ret
               (Ok ("Фильмы по запросу '" +:+ query +:+ "' не найдены."))
         | _ =>
             let output :=
               "Найдено "
               +:+ get result "totalResults" (pretty (length movies))
               +:+ " фильмов (" +:+ year +:+ ", " +:+ movie_type +:+ "):"
               +:+ nl +:+ nl in
             io_ret (Ok (fold_left year_type_step (enumerate movies 1) output))
         end
   end)%io.

(** *** CSV dataset tools *)

Local Open Scope result_scope.

Definition get_top_movies_by_genre (genre : string) (limit : Z)
  : result PyExn string :=
  match df with
  | None => Ok unavailable
  | Some df =>
      mask <-! str_contains re_compile df "Genre" genre ;;
      let filtered := select df mask in
      if is_empty filtered then
        Ok ("Фильмы жанра '" +:+ genre +:+ "' не найдены в датасете.")
      else
        top_movies <-! nlargest limit "IMDB_Rating" filtered ;;
        lines <-! result_map (rating_line repr_float) (iterrows top_movies) ;;
        Ok ("Топ-" +:+ pretty limit +:+ " фильмов жанра " +:+ genre
              +:+ " (из IMDb Top 1000):" +:+ nl +:+ nl
              +:+ String.concat "" ((λ line, line +:+ nl) <$> lines))
  end.

Definition get_movies_by_director (director : string)
  : result PyExn string :=
  match df with
  | None => Ok unavailable
  | Some df =>
      mask <-! str_contains re_compile df "Director" director ;;
      let result := select df mask in
      if is_empty result then
        Ok ("Фильмы режиссера '" +:+ director
              +:+ "' не найдены в датасете IMDb Top 1000.")
      else
        lines <-! result_map (rating_line repr_float) (iterrows result) ;;
        Ok ("Фильмы режиссера " +:+ director +:+ " (из IMDb Top 1000):"
              +:+ nl +:+ nl +:+ String.concat nl lines)
  end.

Definition get_movies_by_actor (actor : string) : result PyExn string :=
  match df with
  | None => Ok unavailable
  | Some df =>
      star1 <-! str_contains re_compile df "Star1" actor ;;
      star2 <-! str_contains re_compile df "Star2" actor ;;
      star3 <-! str_contains re_compile df "Star3" actor ;;
      star4 <-! str_contains re_compile df "Star4" actor ;;
      let mask :=
        zip_with orb (zip_with orb (zip_with orb star1 star2) star3) star4 in
      let result := select df mask in
      if is_empty result then
        Ok ("Фильмы с актером '" +:+ actor
              +:+ "' не найдены в датасете IMDb Top 1000.")
      else
        lines <-! result_map (rating_line repr_float) (iterrows result) ;;
        Ok ("Фильмы с " +:+ actor +:+ " (из IMDb Top 1000):"
              +:+ nl +:+ nl +:+ String.concat nl lines)
  end.

(** the three [result +=] of one row of [get_movies_by_rating] *)
Definition rating_block (movie : gmap string (Cell Float))
  : result PyExn string :=
  line <-! rating_line repr_float movie ;;
  genre <-! getitem movie "Genre" ;;
  director <-! getitem movie "Director" ;;
  Ok (line +:+ nl
        +:+ "  Жанр: " +:+ str_Cell repr_float genre +:+ nl
        +:+ "  Режиссер: " +:+ str_Cell repr_float director +:+ nl +:+ nl).

Definition get_movies_by_rating (min_rating : Float)
    (genre : option string) (limit : Z)
  : result PyExn string :=
  match df with
  | None => Ok unavailable
  | Some df =>
      mask <-! column_ge float_ge df "IMDB_Rating" min_rating ;;
      let filtered := select df mask in
      filtered <-!
        (if truthy genre then
           mask <-! str_contains re_compile filtered "Genre"
                      (default "" genre) ;;
           Ok (select filtered mask)
         else Ok filtered) ;;
      if is_empty filtered then
        let genre_text :=
          if truthy genre then " жанра " +:+ default "" genre else "" in
        Ok ("Фильмы" +:+ genre_text +:+ " с рейтингом ≥ "
              +:+ repr_float min_rating +:+ " не найдены в датасете.")
      else
        top_movies <-! nlargest limit "IMDB_Rating" filtered ;;
        let genre_text :=
          if truthy genre then " (" +:+ default "" genre +:+ ")" else "" in
        blocks <-! result_map rating_block (iterrows top_movies) ;;
        Ok ("Фильмы" +:+ genre_text +:+ " с рейтингом ≥ "
              +:+ repr_float min_rating +:+ " (из IMDb Top 1000):"
              +:+ nl +:+ nl +:+ String.concat "" blocks)
  end.
End Tools.

(** ** Vocabulary of the statements *)

(** [error_message] as [call_omdb_api] reads it *)
Definition error_message (data : Payload) : string :=
  get data "Error" "Unknown error".

Definition mentions (needle : string) (data : Payload) : bool :=
  str_in needle (str_lower (error_message data)).

(** the payload says [{"Response": "False"}] *)
Definition response_false (data : Payload) : bool :=
  bool_decide (fields data !! "Response" = Some "False").

(** The transport succeeded and the payload reports a rate limit. *)
Definition rate_limited (t : Transport) : bool :=
  match t with
  | Json data =>
      response_false data && (mentions "limit" data || mentions "quota" data)
  | _ => false
  end.

Definition transport_error (t : Transport) : string :=
  match t with
  | Json data => error_message data
  | TransportTimeout => ""
  | RequestException e => e
  end.

(** [n] GETs of [params] with one pause between two consecutive ones; the
    pause after the attempt numbered [attempt] lasts [pause attempt]. *)
Fixpoint retry_trace {Delay} (pause : Z → Delay) (params : gmap string string)
    (n : nat) (attempt : Z) : list (Event Delay) :=
  match n with
  | O => []
  | S n' =>
      EvGet params ::
      match n' with
      | O => []
      | S _ => EvSleep (pause attempt) :: retry_trace pause params n' (attempt + 1)
      end
  end.

(** [n] GETs of [params], each one preceded by a pause of [d]. *)
Definition paused_attempts {Delay} (d : Delay) (params : gmap string string)
    (n : nat) : list (Event Delay) :=
  mjoin (replicate n [EvSleep d; EvGet params]).

(** The outcomes that leave [call_omdb_api] from inside its loop. *)
Definition resolved_in_loop (r : result OMDBAPIError (option Payload)) : Prop :=
  match r with
  | Ok _ => True
  | Raise (RateLimited _ | ApiError _ | Timeout | Network _) => True
  | Raise (ConfigurationError | Exhausted) => False
  end.

(** ** Sample data *)

(** whole seconds as delays *)
Definition whole_seconds : Z → Z → Z := Z.mul.

Definition failure (error : string) : Payload :=
  {| fields := {["Response" := "False"; "Error" := error]}; Search := None |}.

(** a server that gives the same answer to every request *)
Definition always (t : Transport) : Server := λ _ _, t.

Definition inception : Payload :=
  {| fields := {["Response" := "True"; "Title" := "Inception";
                 "Year" := "2010"; "Genre" := "Action, Sci-Fi";
                 "Director" := "Christopher Nolan"; "imdbRating" := "8.8"]};
     Search := None |}.

Definition heat : Payload :=
  {| fields := {["Response" := "True"; "Title" := "Heat"; "Year" := "1995";
                 "Plot" := "A group of thieves."; "Runtime" := "170 min"]};
     Search := None |}.

(** a server that knows two titles *)
Definition two_titles : Server := λ _ params,
  match params !! "t" with
  | Some "Inception" => Json inception
  | Some "Heat" => Json heat
  | _ => Json (failure "Movie not found!")
  end.


(** the record with one more (or one replaced) scalar member *)
Definition set_field (key value : string) (data : Payload) : Payload :=
  {| fields := <[key := value]> (fields data); Search := Search data |}.

(** the members [format_movie_info] reads, in reading order *)
Definition info_keys : list string :=
  [ "Title"; "Year"; "Rated"; "Released"; "Runtime"; "Genre"; "Director";
    "Actors"; "Plot"; "Language"; "Country"; "Awards"; "imdbRating";
    "imdbVotes" ].

(** the labels [format_movie_from_csv] reads, in reading order *)
Definition csv_labels : list string :=
  [ "Series_Title"; "Released_Year"; "IMDB_Rating"; "Genre"; "Director";
    "Star1"; "Star2"; "Star3"; "Star4"; "Overview" ].

(** What [format_movie_from_csv] prints for a row, cell by cell. *)
Definition csv_text {Float} (repr_float : Float → string)
    (row : gmap string (Cell Float)) : string :=
  let shown label := str_Cell repr_float (cell row label) in
  String.concat nl
    [ "Название: " +:+ shown "Series_Title";
      "Год: " +:+ shown "Released_Year";
      "Рейтинг IMDb: " +:+ shown "IMDB_Rating" +:+ "/10";
      "Жанр: " +:+ shown "Genre";
      "Режиссер: " +:+ shown "Director";
      "Актеры: " +:+ shown "Star1" +:+ ", " +:+ shown "Star2" +:+ ", "
        +:+ shown "Star3" +:+ ", " +:+ shown "Star4";
      "Описание: " +:+ shown "Overview";
      "";
      "(Источник: IMDb Top 1000 локальный датасет)" ].

(** the line [f"{i}. {title} ({year}) - {movie_type}\n"] *)
Definition list_line (i : nat) (movie : gmap string string) : string :=
  pretty i +:+ ". " +:+ default "N/A" (movie !! "Title") +:+ " ("
    +:+ default "N/A" (movie !! "Year") +:+ ") - "
    +:+ default "N/A" (movie !! "Type") +:+ nl.

(** the line [f"{i}. {title} ({year})\n"] *)
Definition year_type_line (i : nat) (movie : gmap string string) : string :=
  pretty i +:+ ". " +:+ default "N/A" (movie !! "Title") +:+ " ("
    +:+ default "N/A" (movie !! "Year") +:+ ")" +:+ nl.

(** the API outcome is NotFound or Failed *)
Definition not_found_or_failed (r : result OMDBAPIError (option Payload))
  : Prop :=
  match r with
  | Ok (Some _) => False
  | Ok None | Raise _ => True
  end.

(** *** More sample data *)

Definition search_hit (k : nat) : gmap string string :=
  {["Title" := "Movie " +:+ pretty k; "Year" := "2001"; "Type" := "movie"]}.

(** a search answer with [n] hits *)
Definition search_answer (n : nat) : Payload :=
  {| fields := {["Response" := "True"; "totalResults" := pretty n]};
     Search := Some (search_hit <$> seq 1 n) |}.

(** A regular-expression engine for the samples: like Python's [re], it
    rejects a pattern that starts with the repetition operator [*]; every
    other pattern it searches literally, ignoring letter case. *)
Definition sample_re_compile (pat : string)
  : result string (string → bool) :=
  match pat with
  | String "*" _ => Raise "nothing to repeat at position 0"
  | _ => Ok (λ x, str_in (str_lower pat) (str_lower x))
  end.

(** In the samples a float is given by its decimal text. *)
Definition sample_row (title year rating : string)
  : gmap string (Cell string) :=
  {["Series_Title" := CStr title; "Released_Year" := CStr year;
    "IMDB_Rating" := CFloat rating; "Genre" := CStr "Drama";
    "Director" := CStr "Frank Darabont"; "Star1" := CStr "Tim Robbins";
    "Star2" := CStr "Morgan Freeman"; "Star3" := CStr "Bob Gunton";
    "Star4" := CStr "William Sadler"; "Overview" := CStr "Two men bond."]}.

Definition sample_frame : DataFrame string :=
  {| columns := csv_labels;
     dtypes := λ label,
       if bool_decide (label = "IMDB_Rating") then float64 else object;
     rows := [ sample_row "The Shawshank Redemption" "1994" "9.3";
               delete "Overview" (sample_row "The Green Mile" "1999" "8.6") ] |}.

(** the frame with the cells of the column [label] all empty, as
    [read_csv] loads a column without a value: the column is numeric and
    its cells are NaN *)
Definition emptied {Float} (label : string) (frame : DataFrame Float)
  : DataFrame Float :=
  {| columns := columns frame;
     dtypes := λ l, if bool_decide (l = label) then float64 else dtypes frame l;
     rows := delete label <$> rows frame |}.

(** The accessor [.str] accepts the column [label] of the frame: the column
    is of dtype [object], and it holds some text or nothing but empty
    cells. *)
Definition text_column {Float} (frame : DataFrame Float) (label : string)
  : Prop :=
  dtypes frame label = object
  ∧ ((∃ row s, row ∈ rows frame ∧ cell row label = CStr s)
     ∨ ∀ row, row ∈ rows frame → cell row label = CNaN).

(** [nlargest] for the samples: the first [n] rows as they stand *)
Definition sample_nlargest (n : Z) (label : string) (frame : DataFrame string)
  : result PyExn (DataFrame string) :=
  Ok {| columns := columns frame; dtypes := dtypes frame;
        rows := take (Z.to_nat n) (rows frame) |}.


(** ** More vocabulary: the retry loop on an arbitrary server *)

(** the transport failed: the attempt raised instead of giving a payload *)
Definition transient (t : Transport) : bool :=
  match t with
  | Json _ => false
  | TransportTimeout | RequestException _ => true
  end.

(** an answer after which [call_omdb_api] tries again while attempts remain *)
Definition retryable (t : Transport) : bool := transient t || rate_limited t.

(** the pause [call_omdb_api] makes after the answer [t] to the attempt
    numbered [attempt], when it tries again *)
Definition pause_after {Delay} (scale : Delay → Z → Delay)
    (retry_delay : Delay) (t : Transport) (attempt : Z) : Delay :=
  match t with
  | Json _ => scale retry_delay (attempt + 1)%Z
  | TransportTimeout | RequestException _ => retry_delay
  end.

(** How the last answer of a run accounts for the outcome; [spent] says that
    the run used all its attempts. *)
Definition explains (last : Transport) (spent : Prop)
    (r : result OMDBAPIError (option Payload)) : Prop :=
  match r with
  | Ok (Some data) => last = Json data ∧ response_false data = false
  | Ok None =>
      ∃ data, last = Json data ∧ response_false data = true
              ∧ mentions "limit" data = false ∧ mentions "quota" data = false
              ∧ mentions "not found" data = true
  | Raise (ApiError m) =>
      ∃ data, last = Json data ∧ response_false data = true
              ∧ mentions "limit" data = false ∧ mentions "quota" data = false
              ∧ mentions "not found" data = false
              ∧ m = error_message data
  | Raise (RateLimited m) =>
      spent ∧ ∃ data, last = Json data ∧ rate_limited last = true
                      ∧ m = error_message data
  | Raise Timeout => spent ∧ last = TransportTimeout
  | Raise (Network e) => spent ∧ last = RequestException e
  | Raise (ConfigurationError | Exhausted) => False
  end.

(** the outcome of [call_omdb_api] on a payload that is not retried *)
Definition settled (data : Payload)
  : result OMDBAPIError (option Payload) :=
  if response_false data then
    if mentions "not found" data then Ok None
    else Raise (ApiError (error_message data))
  else Ok (Some data).

(** a server whose first [k] answers are timeouts and whose later answers
    are [t] *)
Definition after_timeouts (k : nat) (t : Transport) : Server :=
  λ n _, if bool_decide (n < k) then TransportTimeout else t.

(** a server that times out first and then refuses every connection *)
Definition flaky : Server := λ n _,
  match n with
  | O => TransportTimeout
  | S _ => RequestException "Connection refused"
  end.

(** ** More vocabulary: the dataset *)

(** the cell is text that the compiled pattern finds a match in *)
Definition matches {Float} (search : string → bool) (c : Cell Float) : bool :=
  match c with
  | CStr s => search s
  | CFloat _ | CNaN => false
  end.

(** the rows of the frame whose cell under [label] matches *)
Definition hits {Float} (search : string → bool) (label : string)
    (frame : DataFrame Float) : list (gmap string (Cell Float)) :=
  filter (λ row, matches search (cell row label) = true) (rows frame).

(** What the dataset listings print for a row:
    [f"{row['Series_Title']} ({row['Released_Year']}) - {row['IMDB_Rating']}/10"] *)
Definition rating_text {Float} (repr_float : Float → string)
    (row : gmap string (Cell Float)) : string :=
  str_Cell repr_float (cell row "Series_Title") +:+ " ("
    +:+ str_Cell repr_float (cell row "Released_Year") +:+ ") - "
    +:+ str_Cell repr_float (cell row "IMDB_Rating") +:+ "/10".

(** the labels the dataset listings read *)
Definition rating_labels : list string :=
  [ "Series_Title"; "Released_Year"; "IMDB_Rating" ].

(** the cell is a number that is at least [x] *)
Definition at_least {Float} (float_ge : Float → Float → bool) (x : Float)
    (c : Cell Float) : bool :=
  match c with
  | CFloat y => float_ge y x
  | CStr _ | CNaN => false
  end.

(** the cell is a number or empty *)
Definition numeric {Float} (c : Cell Float) : bool :=
  match c with
  | CFloat _ | CNaN => true
  | CStr _ => false
  end.

(** What [get_movies_by_rating] prints for a row. *)
Definition rating_block_text {Float} (repr_float : Float → string)
    (row : gmap string (Cell Float)) : string :=
  rating_text repr_float row +:+ nl
    +:+ "  Жанр: " +:+ str_Cell repr_float (cell row "Genre") +:+ nl
    +:+ "  Режиссер: " +:+ str_Cell repr_float (cell row "Director")
    +:+ nl +:+ nl.

(** [>=] for the samples, whose floats are decimal texts of one shape
    ("9.3", "8.6"): such texts compare as the numbers do *)
Definition sample_float_ge (y x : string) : bool := String.leb x y.

(** a server that finds no title but "Heat", for which it never answers in
    time *)
Definition heat_times_out : Server := λ _ params,
  match params !! "t" with
  | Some "Heat" => TransportTimeout
  | _ => Json (failure "Movie not found!")
  end.

Definition star_labels : list string := [ "Star1"; "Star2"; "Star3"; "Star4" ].


(** ** [main.py] *)

(** *** Python strings, continued *)

Definition newline : ascii := ascii_of_nat 10.

(** [s[n:]] *)
Fixpoint str_drop (n : nat) (s : string) : string :=
  match n, s with
  | S n, String _ rest => str_drop n rest
  | _, _ => s
  end.

(** The characters that [str.isspace], [str.strip] and the pattern [\s]
    count as whitespace, in UTF-8: U+0009 to U+000D and U+001C to U+0020 on
    one byte; U+0085 and U+00A0 on two; U+1680, U+2000 to U+200A, U+2028,
    U+2029, U+202F, U+205F and U+3000 on three. *)
Definition space1 (c : ascii) : bool :=
  let n := N_of_ascii c in
  ((9 <=? n) && (n <=? 13) || (28 <=? n) && (n <=? 32))%N.

Definition space2 (c1 c2 : ascii) : bool :=
  let n1 := N_of_ascii c1 in
  let n2 := N_of_ascii c2 in
  ((n1 =? 194) && ((n2 =? 133) || (n2 =? 160)))%N.

Definition space3 (c1 c2 c3 : ascii) : bool :=
  let n1 := N_of_ascii c1 in
  let n2 := N_of_ascii c2 in
  let n3 := N_of_ascii c3 in
  ((n1 =? 225) && (n2 =? 154) && (n3 =? 128)
   || (n1 =? 226) && (n2 =? 128)
      && ((128 <=? n3) && (n3 <=? 138)
          || (n3 =? 168) || (n3 =? 169) || (n3 =? 175))
   || (n1 =? 226) && (n2 =? 129) && (n3 =? 159)
   || (n1 =? 227) && (n2 =? 128) && (n3 =? 128))%N.

(** the number of bytes of the whitespace character [s] starts with; 0 when
    it starts with none *)
Definition space_len (s : string) : nat :=
  match s with
  | String c1 r1 =>
      if space1 c1 then 1
      else match r1 with
           | String c2 r2 =>
               if space2 c1 c2 then 2
               else match r2 with
                    | String c3 _ => if space3 c1 c2 c3 then 3 else 0
                    | EmptyString => 0
                    end
           | EmptyString => 0
           end
  | EmptyString => 0
  end.

(** the same, reading the string backwards from its end *)
Definition space_len_rev (s : string) : nat :=
  match s with
  | String c1 r1 =>
      if space1 c1 then 1
      else match r1 with
           | String c2 r2 =>
               if space2 c2 c1 then 2
               else match r2 with
                    | String c3 _ => if space3 c3 c2 c1 then 3 else 0
                    | EmptyString => 0
                    end
           | EmptyString => 0
           end
  | EmptyString => 0
  end.

(** Drop the leading whitespace characters, byte by byte: [skip] bytes of
    the character being dropped are still to go. *)
Fixpoint drop_spaces (len : string → nat) (skip : nat) (s : string) : string :=
  match s with
  | EmptyString => EmptyString
  | String c rest =>
      match skip with
      | S k => drop_spaces len k rest
      | O =>
          match len (String c rest) with
          | O => String c rest
          | S m => drop_spaces len m rest
          end
      end
  end.

Definition lstrip (s : string) : string := drop_spaces space_len 0 s.

Definition rstrip (s : string) : string :=
  String.rev (drop_spaces space_len_rev 0 (String.rev s)).

(** [s.strip()] *)
Definition strip (s : string) : string := rstrip (lstrip s).

(** [s.split(sep)] for a separator of one character *)
Fixpoint split_on (sep : ascii) (s : string) : list string :=
  match s with
  | EmptyString => [EmptyString]
  | String c rest =>
      if Ascii.eqb c sep then EmptyString :: split_on sep rest
      else match split_on sep rest with
           | first :: others => String c first :: others
           | [] => [String c EmptyString]
           end
  end.

(** the text before and the text after the first [sep], when there is one *)
Fixpoint cut (sep : ascii) (s : string) : option (string * string) :=
  match s with
  | EmptyString => None
  | String c rest =>
      if Ascii.eqb c sep then Some (EmptyString, rest)
      else match cut sep rest with
           | Some (before, after) => Some (String c before, after)
           | None => None
           end
  end.

(** [s.split(sep, 1)] for a separator of one character *)
Definition split_once (sep : ascii) (s : string) : list string :=
  match cut sep s with
  | Some (before, after) => [before; after]
  | None => [s]
  end.

(** *** [remove_markdown_syntax] *)

(** [re.sub] scans the text from left to right; where the pattern matches,
    the match is replaced and the scan goes on behind it.  The five patterns
    are fixed, so each pass is written out: it walks the text byte by byte,
    and after a match it skips the bytes the match covers. *)

(** The lazy [(.*?)] followed by the closing delimiter [D], read from just
    behind the opening delimiter: the shortest text without a newline that
    [D] follows. *)
Fixpoint find_close (D s : string) : option string :=
  if String.prefix D s then Some EmptyString
  else match s with
       | EmptyString => None
       | String c rest =>
           if Ascii.eqb c newline then None
           else match find_close D rest with
                | Some inner => Some (String c inner)
                | None => None
                end
       end.

(** [re.sub(D (.*?) D, r"\1", s)] for a literal delimiter [D] *)
Fixpoint unwrap_go (D : string) (skip : nat) (s : string) : string :=
  match s with
  | EmptyString => EmptyString
  | String c rest =>
      match skip with
      | S k => unwrap_go D k rest
      | O =>
          if String.prefix D (String c rest) then
            match find_close D (str_drop (String.length D) (String c rest)) with
            | Some inner =>
                inner +:+ unwrap_go D
                            (2 * String.length D + String.length inner - 1)
                            rest
            | None => String c (unwrap_go D 0 rest)
            end
          else String c (unwrap_go D 0 rest)
      end
  end.

Definition unwrap (D s : string) : string := unwrap_go D 0 s.

(** the number of ["#"] that [s] starts with *)
Fixpoint count_hashes (s : string) : nat :=
  match s with
  | String c rest => if Ascii.eqb c "#" then S (count_hashes rest) else 0
  | EmptyString => 0
  end.

(** the number of bytes of the longest run of whitespace characters that
    [s] starts with *)
Fixpoint spaces_run (skip : nat) (s : string) : nat :=
  match s with
  | EmptyString => 0
  | String c rest =>
      match skip with
      | S k => S (spaces_run k rest)
      | O =>
          match space_len (String c rest) with
          | O => 0
          | S m => S (spaces_run m rest)
          end
      end
  end.

(** The length of the match of [#{1,6}\s+] at the start of [s], 0 when there
    is none: one to six hashes, not followed by a seventh, and then all the
    whitespace that follows, at least one character of it. *)
Definition header_len (s : string) : nat :=
  let h := count_hashes s in
  if bool_decide (1 ≤ h ≤ 6) then
    match spaces_run 0 (str_drop h s) with
    | O => 0
    | S w => h + S w
    end
  else 0.

(** [re.sub(r"^#{1,6}\s+", "", s, flags=re.MULTILINE)]; [bol] says that the
    scan stands at the start of the text or just behind a newline. *)
Fixpoint strip_headers_go (skip : nat) (bol : bool) (s : string) : string :=
  match s with
  | EmptyString => EmptyString
  | String c rest =>
      let bol' := Ascii.eqb c newline in
      match skip with
      | S k => strip_headers_go k bol' rest
      | O =>
          match (if bol then header_len (String c rest) else 0) with
          | S m => strip_headers_go m bol' rest
          | O => String c (strip_headers_go 0 bol' rest)
          end
      end
  end.

Definition strip_headers (s : string) : string := strip_headers_go 0 true s.

(** the lazy [.*?\)] read from just behind ["("]: the number of bytes up to
    and including the first [")"] of the line *)
Fixpoint find_paren (s : string) : option nat :=
  match s with
  | EmptyString => None
  | String c rest =>
      if Ascii.eqb c newline then None
      else if Ascii.eqb c ")" then Some 1
      else match find_paren rest with
           | Some n => Some (S n)
           | None => None
           end
  end.

(** The rest of [\[(.*?)\]\(.*?\)] read from just behind ["["]: the text of
    the link and the number of bytes the match covers behind ["["]. *)
Fixpoint find_link (s : string) : option (string * nat) :=
  match (if String.prefix "](" s then find_paren (str_drop 2 s) else None) with
  | Some url => Some (EmptyString, 2 + url)
  | None =>
      match s with
      | EmptyString => None
      | String c rest =>
          if Ascii.eqb c newline then None
          else match find_link rest with
               | Some (inner, used) => Some (String c inner, S used)
               | None => None
               end
      end
  end.

(** [re.sub(r"\[(.*?)\]\(.*?\)", r"\1", s)] *)
Fixpoint unlink_go (skip : nat) (s : string) : string :=
  match s with
  | EmptyString => EmptyString
  | String c rest =>
      match skip with
      | S k => unlink_go k rest
      | O =>
          if Ascii.eqb c "[" then
            match find_link rest with
            | Some (inner, used) => inner +:+ unlink_go used rest
            | None => String c (unlink_go 0 rest)
            end
          else String c (unlink_go 0 rest)
      end
  end.

Definition unlink (s : string) : string := unlink_go 0 s.

Definition remove_markdown_syntax (text : string) : string :=
  (* Remove bold **text** *)
  let text := unwrap "**" text in
  (* Remove italic *text* *)
  let text := unwrap "*" text in
  (* Remove headers ### *)
  let text := strip_headers text in
  (* Remove inline code `code` *)
  let text := unwrap "`" text in
  (* Remove links [text](url) *)
  let text := unlink text in
  text.

(** *** [format_output] *)

(** A [rich.text.Text] under construction: the calls of [append] made on
    it, in order, each with its text and its style. *)
Definition format_line (formatted : list (string * option string))
    (line : string) : list (string * option string) :=
  if str_in ":" line && negb (String.prefix "http" (strip line)) then
    let parts := split_once ":" line in
    match parts with
    | [key; value] =>
        formatted ++ [(key +:+ ":", Some "bold cyan"); (value +:+ nl, None)]
    | _ => formatted ++ [(line +:+ nl, None)]
    end
  else formatted ++ [(line +:+ nl, None)].

Definition format_output (text : string) : list (string * option string) :=
  let clean_text := remove_markdown_syntax text in
  fold_left format_line (split_on newline clean_text) [].

(** *** [parse_arguments] *)

(** [argv] is [sys.argv]; the result is the dictionary returned. *)
Definition parse_arguments (argv : list string) : gmap string bool :=
  let verbose :=
    fold_left
      (λ verbose arg,
         if bool_decide (arg ∈ ["--verbose"; "-v"]) then true else verbose)
      (drop 1 argv) false in
  {["verbose" := verbose]}.

(** *** Vocabulary for [main.py] *)

(** the characters that the patterns of [remove_markdown_syntax] start with *)
Definition markdown_char (c : ascii) : bool :=
  Ascii.eqb c "*" || Ascii.eqb c "#" || Ascii.eqb c "`" || Ascii.eqb c "[".

(** the character [c] does not occur in [s] *)
Fixpoint lacks (c : ascii) (s : string) : bool :=
  match s with
  | EmptyString => true
  | String c' rest => negb (Ascii.eqb c' c) && lacks c rest
  end.

(** the text contains none of ["*"], ["#"], ["`"] and ["["] *)
Definition plain (s : string) : bool :=
  lacks "*" s && lacks "#" s && lacks "`" s && lacks "[" s.

(** [n] times the character ["#"] *)
Fixpoint hashes (n : nat) : string :=
  match n with
  | O => EmptyString
  | S n => String "#" (hashes n)
  end.

(** the text appended to a [Text], in one piece *)
Definition appended (formatted : list (string * option string)) : string :=
  String.concat "" (fst <$> formatted).
(** ** Traces *)

Section TraceFacts.
Context {Delay : Type}.
Implicit Types (tr : list (Event Delay)) (params : gmap string string).

Lemma count_gets_app tr tr' :
  count_gets (tr ++ tr') = count_gets tr + count_gets tr'.
Proof. unfold count_gets. by rewrite filter_app, length_app. Qed.

Lemma count_gets_get tr params :
  count_gets (tr ++ [EvGet params]) = S (count_gets tr).
Proof. rewrite count_gets_app. unfold count_gets at 2. simpl. lia. Qed.

Lemma count_gets_sleep tr (d : Delay) :
  count_gets (tr ++ [EvSleep d]) = count_gets tr.
Proof. rewrite count_gets_app. unfold count_gets at 2. simpl. lia. Qed.

Lemma count_gets_retry_trace (pause : Z → Delay) params n attempt :
  count_gets (retry_trace pause params n attempt) = n.
Proof.
  revert attempt. induction n as [|n IH]; intros attempt; [done|].
  destruct n as [|n]; [done|].
  change (retry_trace pause params (S (S n)) attempt)
    with ([EvGet params; EvSleep (pause attempt)]
            ++ retry_trace pause params (S n) (attempt + 1)).
  rewrite count_gets_app, IH. done.
Qed.

Lemma sleeps_retry_trace (pause : Z → Delay) params n attempt :
  sleeps (retry_trace pause params (S n) attempt)
  = pause <$> seqZ attempt (Z.of_nat n).
Proof.
  revert attempt. induction n as [|n IH]; intros attempt; [done|].
  change (sleeps (retry_trace pause params (S (S n)) attempt))
    with (pause attempt
            :: sleeps (retry_trace pause params (S n) (attempt + 1))).
  rewrite IH, Nat2Z.inj_succ, (seqZ_cons attempt) by lia.
  rewrite fmap_cons. do 3 f_equal; lia.
Qed.

End TraceFacts.

(** ** The retry loop *)

Section ApiFacts.
Context {Delay : Type}.
Variable scale : Delay → Z → Delay.
Variable net : Server.
Variable params : gmap string string.
Variable max_retries : Z.
Variable retry_delay : Delay.

Local Abbreviation loop := (attempts scale net params max_retries retry_delay).

(** One iteration, spelled out on the trace. *)
Lemma attempts_step todo attempt tr :
  loop (S todo) attempt tr =
  let tr1 := tr ++ [EvGet params] in
  let retry (pause : Delay) (e : OMDBAPIError) :=
    if bool_decide (attempt < max_retries - 1)%Z
    then loop todo (attempt + 1)%Z (tr1 ++ [EvSleep pause])
    else (Raise e, tr1) in
  match net (count_gets tr) params with
  | Json data =>
      if response_false data then
        if mentions "limit" data || mentions "quota" data then
          retry (scale retry_delay (attempt + 1)) (RateLimited (error_message data))
        else if mentions "not found" data then (Ok None, tr1)
        else (Raise (ApiError (error_message data)), tr1)
      else (Ok (Some data), tr1)
  | TransportTimeout => retry retry_delay Timeout
  | RequestException e => retry retry_delay (Network e)
  end.
Proof.
  cbn [attempts]. unfold io_bind at 1, http_get, response_false, mentions,
    error_message.
  destruct (net (count_gets tr) params) as [data| |e]; cbn zeta;
    repeat (case_match; try reflexivity).
Qed.

(** Every answer reports a rate limit: the loop runs to its last
    iteration, pausing [retry_delay * (attempt + 1)] after each attempt
    but the last. *)
Lemma attempts_rate_limited todo attempt tr :
  (Z.of_nat (S todo) + attempt = max_retries)%Z →
  (∀ n, rate_limited (net n params) = true) →
  loop (S todo) attempt tr =
  (Raise (RateLimited (transport_error (net (count_gets tr + todo) params))),
   tr ++ retry_trace (λ a, scale retry_delay (a + 1)) params (S todo) attempt).
Proof.
  intros Hsum Hlimited. revert attempt tr Hsum.
  induction todo as [|todo IH]; intros attempt tr Hsum;
    rewrite attempts_step; cbn zeta;
    pose proof (Hlimited (count_gets tr)) as Hnow;
    destruct (net (count_gets tr) params) as [data| |e] eqn:Hnet;
    try discriminate; simpl in Hnow;
    apply andb_true_iff in Hnow as [-> ->].
  - rewrite bool_decide_eq_false_2 by lia.
    by rewrite Nat.add_0_r, Hnet.
  - rewrite bool_decide_eq_true_2 by lia.
    rewrite IH by lia.
    rewrite count_gets_sleep, count_gets_get.
    rewrite <- !app_assoc.
    by replace (S (count_gets tr) + todo) with (count_gets tr + S todo) by lia.
Qed.

(** Every attempt times out: the loop runs to its last iteration, pausing
    [retry_delay] after each attempt but the last. *)
Lemma attempts_timeout todo attempt tr :
  (Z.of_nat (S todo) + attempt = max_retries)%Z →
  (∀ n, net n params = TransportTimeout) →
  loop (S todo) attempt tr =
  (Raise Timeout,
   tr ++ retry_trace (λ _, retry_delay) params (S todo) attempt).
Proof.
  intros Hsum Htimeout. revert attempt tr Hsum.
  induction todo as [|todo IH]; intros attempt tr Hsum;
    rewrite attempts_step; cbn zeta; rewrite Htimeout.
  - by rewrite bool_decide_eq_false_2 by lia.
  - rewrite bool_decide_eq_true_2 by lia.
    rewrite IH by lia. by rewrite <- !app_assoc.
Qed.

(** While iterations remain and the counters agree, the loop ends at one
    of its own [return] or [raise] statements. *)
Lemma attempts_resolve todo attempt tr :
  (Z.of_nat (S todo) + attempt = max_retries)%Z →
  ∃ new, snd (loop (S todo) attempt tr) = tr ++ new
         ∧ 1 ≤ count_gets new ≤ S todo
         ∧ resolved_in_loop (fst (loop (S todo) attempt tr)).
Proof.
  revert attempt tr.
  induction todo as [|todo IH]; intros attempt tr Hsum;
    rewrite attempts_step; cbn zeta.
  - rewrite bool_decide_eq_false_2 by lia.
    exists [EvGet params].
    repeat case_match; simpl; (split; [done|split; [by compute; lia|done]]).
  - rewrite bool_decide_eq_true_2 by lia.
    assert (∀ d,
      ∃ new, snd (loop (S todo) (attempt + 1)%Z
                    ((tr ++ [EvGet params]) ++ [EvSleep d])) = tr ++ new
           ∧ 1 ≤ count_gets new ≤ S (S todo)
           ∧ resolved_in_loop
               (fst (loop (S todo) (attempt + 1)%Z
                       ((tr ++ [EvGet params]) ++ [EvSleep d])))) as Hnext.
    { intros d.
      destruct (IH (attempt + 1)%Z ((tr ++ [EvGet params]) ++ [EvSleep d]))
        as (new & Htr & Hcount & Hres); [lia|].
      exists ([EvGet params; EvSleep d] ++ new). split; [|split; [|done]].
      - rewrite Htr. by rewrite <- !app_assoc.
      - rewrite count_gets_app. change (count_gets [EvGet params; EvSleep d])
          with 1. lia. }
    assert (∀ r : result OMDBAPIError (option Payload),
      resolved_in_loop r →
      ∃ new, snd (r, tr ++ [EvGet params]) = tr ++ new
           ∧ 1 ≤ count_gets new ≤ S (S todo)
           ∧ resolved_in_loop (fst (r, tr ++ [EvGet params]))) as Hstop.
    { intros r Hr. exists [EvGet params].
      split; [done|split; [by compute; lia|done]]. }
    repeat case_match; try apply Hnext; by apply Hstop.
Qed.
End ApiFacts.

(** ** [call_omdb_api] *)

Section CallOmdbApi.
Context {Delay : Type}.
Variable scale : Delay → Z → Delay.
Variable OMDB_API_KEY : string.
Variable net : Server.
Variable params : gmap string string.
Variable max_retries : Z.
Variable retry_delay : Delay.

Local Abbreviation _params := (params ∪ {["apikey" := OMDB_API_KEY]}).
Local Abbreviation call :=
  (call_omdb_api scale OMDB_API_KEY net params max_retries retry_delay).

Lemma call_configured tr :
  OMDB_API_KEY ≠ "" →
  call tr = attempts scale net _params max_retries retry_delay
              (Z.to_nat max_retries) 0 tr.
Proof. intros Hkey. unfold call_omdb_api. by rewrite bool_decide_eq_false_2. Qed.

(** C1.  With a configured key and [max_retries >= 1], when every answer
    is a payload with Response "False" whose error message contains
    "limit" or "quota" in any letter case, the call makes exactly
    [max_retries] attempts, pauses between consecutive attempts for
    [retry_delay * 1], [retry_delay * 2], ... (one pause fewer than
    attempts), and then raises the rate-limit error carrying the last
    message. *)
Theorem rate_limit_backoff tr :
  OMDB_API_KEY ≠ "" →
  (1 ≤ max_retries)%Z →
  (∀ n p, rate_limited (net n p) = true) →
  ∃ new,
    call tr =
      (Raise (RateLimited (transport_error
         (net (count_gets tr + (Z.to_nat max_retries - 1)) _params))),
       tr ++ new)
    ∧ new = retry_trace (λ attempt, scale retry_delay (attempt + 1))
              _params (Z.to_nat max_retries) 0
    ∧ count_gets new = Z.to_nat max_retries
    ∧ sleeps new = scale retry_delay <$> seqZ 1 (max_retries - 1).
Proof.
  intros Hkey Hmax Hlimited. rewrite call_configured by done.
  destruct (Z.to_nat max_retries) as [|todo] eqn:Htodo; [lia|].
  eexists. split; [|split; [reflexivity|split]].
  - rewrite attempts_rate_limited by (done || lia).
    by rewrite Nat.sub_succ, Nat.sub_0_r.
  - apply count_gets_retry_trace.
  - rewrite sleeps_retry_trace.
    replace (max_retries - 1)%Z with (Z.of_nat todo) by lia.
    rewrite <- (fmap_add_seqZ 1 0), <- list_fmap_compose.
    apply list_fmap_ext. intros _ attempt _. simpl. f_equal. lia.
Qed.

(** C2, as the code has it.  With a configured key and
    [max_retries >= 1], when every attempt times out, the call raises the
    timeout error after exactly [max_retries] attempts; every attempt after
    the first is preceded by exactly one pause of [retry_delay], unscaled,
    and nothing precedes the first attempt: [max_retries - 1] pauses. *)
Theorem timeout_constant_pause tr :
  OMDB_API_KEY ≠ "" →
  (1 ≤ max_retries)%Z →
  (∀ n p, net n p = TransportTimeout) →
  ∃ new,
    call tr = (Raise Timeout, tr ++ new)
    ∧ new = retry_trace (λ _, retry_delay) _params (Z.to_nat max_retries) 0
    ∧ count_gets new = Z.to_nat max_retries
    ∧ sleeps new = replicate (Z.to_nat max_retries - 1) retry_delay.
Proof.
  intros Hkey Hmax Htimeout. rewrite call_configured by done.
  destruct (Z.to_nat max_retries) as [|todo] eqn:Htodo; [lia|].
  eexists. split; [|split; [reflexivity|split]].
  - by rewrite attempts_timeout by (done || lia).
  - apply count_gets_retry_trace.
  - rewrite sleeps_retry_trace, Nat.sub_succ, Nat.sub_0_r.
    rewrite (const_fmap _ _ retry_delay) by done.
    rewrite length_seqZ. f_equal. lia.
Qed.

(** C3, as the code has it.  With a configured key and
    [max_retries >= 1], when the first answer is a payload with Response
    "False" whose error message contains "not found" in any letter case
    and contains neither "limit" nor "quota", the call returns [None]
    after that one attempt: no retry, no pause, no error. *)
Theorem not_found_immediately tr data :
  OMDB_API_KEY ≠ "" →
  (1 ≤ max_retries)%Z →
  net (count_gets tr) _params = Json data →
  response_false data = true →
  mentions "not found" data = true →
  mentions "limit" data = false →
  mentions "quota" data = false →
  ∃ new,
    call tr = (Ok None, tr ++ new)
    ∧ new = [EvGet _params]
    ∧ count_gets new = 1
    ∧ sleeps new = [].
Proof.
  intros Hkey Hmax Hnet Hfalse Hnotfound Hlimit Hquota.
  rewrite call_configured by done.
  destruct (Z.to_nat max_retries) as [|todo] eqn:Htodo; [lia|].
  rewrite attempts_step. cbn zeta.
  rewrite Hnet, Hfalse, Hlimit, Hquota, Hnotfound.
  by eexists.
Qed.

(** C10.  With a configured key: if [max_retries >= 1], then whatever the
    server answers, the call ends inside the loop, after at least one and
    at most [max_retries] attempts, by returning the data, returning
    [None] or raising one of the rate-limit, API, timeout and network
    errors; and the error raised after the loop is the outcome exactly
    when [max_retries <= 0]. *)
Theorem final_raise_unreachable tr :
  OMDB_API_KEY ≠ "" →
  ((1 ≤ max_retries)%Z →
     resolved_in_loop (fst (call tr))
     ∧ ∃ new, snd (call tr) = tr ++ new
              ∧ 1 ≤ count_gets new ≤ Z.to_nat max_retries)
  ∧ (fst (call tr) = Raise Exhausted ↔ (max_retries ≤ 0)%Z).
Proof.
  intros Hkey. rewrite call_configured by done.
  destruct (Z.to_nat max_retries) as [|todo] eqn:Htodo.
  - split; [lia|]. simpl. split; [lia|done].
  - destruct (attempts_resolve scale net _params max_retries retry_delay
                todo 0 tr) as (new & Htr & Hcount & Hres); [lia|].
    split.
    + intros _. split; [done|]. by exists new.
    + split; [|lia]. intros Hexhausted.
      rewrite Hexhausted in Hres. destruct Hres.
Qed.
End CallOmdbApi.

(** *** The client on sample servers *)

Example rate_limited_run :
  call_omdb_api whole_seconds "k"
    (always (Json (failure "Request limit reached"))) ∅ 3 2%Z []
  = (Raise (RateLimited "Request limit reached"),
     [ EvGet {["apikey" := "k"]}; EvSleep 2%Z;
       EvGet {["apikey" := "k"]}; EvSleep 4%Z;
       EvGet {["apikey" := "k"]} ]).
Proof. vm_compute. reflexivity. Qed.

Example timeout_run :
  call_omdb_api whole_seconds "k" (always TransportTimeout) ∅ 3 5%Z []
  = (Raise Timeout,
     [ EvGet {["apikey" := "k"]}; EvSleep 5%Z;
       EvGet {["apikey" := "k"]}; EvSleep 5%Z;
       EvGet {["apikey" := "k"]} ]).
Proof. vm_compute. reflexivity. Qed.

Example unconfigured_run :
  call_omdb_api whole_seconds "" (always (Json inception)) ∅ 3 1%Z []
  = (Raise ConfigurationError, []).
Proof. reflexivity. Qed.

Example no_attempts_run :
  call_omdb_api whole_seconds "k" (always (Json inception)) ∅ 0 1%Z []
  = (Raise Exhausted, []).
Proof. reflexivity. Qed.

(** Three attempts against a server that always answers "Request limit
    reached", with a delay of two seconds: pauses of 2 and 4 seconds. *)
Lemma rate_limit_backoff_witness :
  ∃ new,
    call_omdb_api whole_seconds "k"
      (always (Json (failure "Request limit reached"))) ∅ 3 2%Z []
    = (Raise (RateLimited "Request limit reached"), [] ++ new)
    ∧ new = retry_trace (λ attempt, whole_seconds 2 (attempt + 1))
              (∅ ∪ {["apikey" := "k"]}) 3 0
    ∧ count_gets new = 3
    ∧ sleeps new = [2; 4]%Z.
Proof.
  apply (rate_limit_backoff whole_seconds "k"
           (always (Json (failure "Request limit reached"))) ∅ 3 2%Z []).
  - discriminate.
  - lia.
  - intros n p. vm_compute. reflexivity.
Defined.

(** Three attempts against a server that never answers in time, with a
    delay of five seconds: two pauses of 5 seconds. *)
Lemma timeout_constant_pause_witness :
  ∃ new,
    call_omdb_api whole_seconds "k" (always TransportTimeout) ∅ 3 5%Z []
    = (Raise Timeout, [] ++ new)
    ∧ new = retry_trace (λ _, 5%Z) (∅ ∪ {["apikey" := "k"]}) 3 0
    ∧ count_gets new = 3
    ∧ sleeps new = [5; 5]%Z.
Proof.
  apply (timeout_constant_pause whole_seconds "k" (always TransportTimeout)
           ∅ 3 5%Z []).
  - discriminate.
  - lia.
  - intros n p. reflexivity.
Defined.

(** C2 as stated fails.  One attempt that times out ([max_retries = 1],
    delay 5): the call raises the timeout error after its single attempt
    and has not paused at all, so the attempt was not preceded by a pause
    and the pauses are fewer than the attempts. *)
Lemma timeout_pause_per_attempt_counterexample :
  let run :=
    call_omdb_api whole_seconds "k" (always TransportTimeout) ∅ 1 5%Z [] in
  fst run = Raise Timeout
  ∧ count_gets (snd run) = 1
  ∧ sleeps (snd run) = []
  ∧ snd run ≠ paused_attempts 5%Z (∅ ∪ {["apikey" := "k"]}) 1
  ∧ length (sleeps (snd run)) ≠ count_gets (snd run).
Proof. vm_compute. repeat split; discriminate. Qed.

(** The answer "Movie not found!" ends the call at once. *)
Lemma not_found_immediately_witness :
  ∃ new,
    call_omdb_api whole_seconds "k"
      (always (Json (failure "Movie not found!"))) ∅ 3 1%Z []
    = (Ok None, [] ++ new)
    ∧ new = [EvGet (∅ ∪ {["apikey" := "k"]})]
    ∧ count_gets new = 1
    ∧ sleeps new = [].
Proof.
  apply (not_found_immediately whole_seconds "k"
           (always (Json (failure "Movie not found!"))) ∅ 3 1%Z []
           (failure "Movie not found!")).
  - discriminate.
  - lia.
  - reflexivity.
  - vm_compute. reflexivity.
  - vm_compute. reflexivity.
  - vm_compute. reflexivity.
  - vm_compute. reflexivity.
Defined.

(** C3 as stated fails.  The message "Request limit not found" contains
    "not found", yet the test for "limit" comes first: with
    [max_retries = 3] the call makes three attempts, pauses twice and raises
    the rate-limit error instead of returning [None]. *)
Lemma not_found_after_limit_counterexample :
  let data := failure "Request limit not found" in
  let run := call_omdb_api whole_seconds "k" (always (Json data)) ∅ 3 1%Z [] in
  response_false data = true
  ∧ mentions "not found" data = true
  ∧ fst run = Raise (RateLimited "Request limit not found")
  ∧ fst run ≠ Ok None
  ∧ count_gets (snd run) = 3
  ∧ sleeps (snd run) = [1; 2]%Z.
Proof. vm_compute. repeat split; discriminate. Qed.

(** A server that times out once and then answers: the call ends in the
    loop. *)
Lemma final_raise_unreachable_witness :
  let run :=
    call_omdb_api whole_seconds "k"
      (λ n _, match n with O => TransportTimeout | _ => Json inception end)
      ∅ 3 1%Z [] in
  ((1 ≤ 3)%Z →
     resolved_in_loop (fst run)
     ∧ ∃ new, snd run = [] ++ new ∧ 1 ≤ count_gets new ≤ Z.to_nat 3)
  ∧ (fst run = Raise Exhausted ↔ (3 ≤ 0)%Z).
Proof.
  apply (final_raise_unreachable whole_seconds "k"
           (λ n _, match n with O => TransportTimeout | _ => Json inception end)
           ∅ 3 1%Z []).
  discriminate.
Defined.

(** ** Strings *)

Lemma append_assoc (s1 s2 s3 : string) :
  (s1 +:+ s2) +:+ s3 = s1 +:+ (s2 +:+ s3).
Proof.
  induction s1 as [|a s1 IH]; [done|].
  change (String a ((s1 +:+ s2) +:+ s3) = String a (s1 +:+ (s2 +:+ s3))).
  by rewrite IH.
Qed.

Lemma append_empty_r (s : string) : s +:+ "" = s.
Proof.
  induction s as [|a s IH]; [done|].
  change (String a (s +:+ "") = String a s). by rewrite IH.
Qed.

Lemma concat_empty_cons (x : string) (xs : list string) :
  String.concat "" (x :: xs) = x +:+ String.concat "" xs.
Proof. destruct xs; [by rewrite append_empty_r|done]. Qed.

(** ** The formatters *)

Ltac pick_label :=
  repeat first [apply list_elem_of_here | apply list_elem_of_further].

(** a column of the sample frame whose first row holds text *)
Ltac sample_text_column :=
  split; [reflexivity|left; eexists _, _; split;
                        [apply list_elem_of_here|reflexivity]].

(** [csv_labels] cut at position [k], where the label [l] stands *)
Ltac split_labels k l :=
  exists (take k csv_labels), l, (drop (S k) csv_labels);
  split; [reflexivity|].

(** C8.  For a record without the member Plot, [format_movie_info] prints
    "Описание: N/A" as its ninth line, after the eight lines from the title
    to the actors and before the four lines from the language to the
    votes; and the same record with a Plot, whatever that Plot is, prints
    the same text before and after its description line. *)
Theorem format_movie_info_without_plot (r : Payload) :
  fields r !! "Plot" = None →
  let before :=
    "Название: " +:+ get r "Title" "N/A" +:+ nl
    +:+ "Год: " +:+ get r "Year" "N/A" +:+ nl
    +:+ "Рейтинг: " +:+ get r "Rated" "N/A" +:+ nl
    +:+ "Дата выхода: " +:+ get r "Released" "N/A" +:+ nl
    +:+ "Длительность: " +:+ get r "Runtime" "N/A" +:+ nl
    +:+ "Жанр: " +:+ get r "Genre" "N/A" +:+ nl
    +:+ "Режиссер: " +:+ get r "Director" "N/A" +:+ nl
    +:+ "Актеры: " +:+ get r "Actors" "N/A" +:+ nl in
  let after :=
    nl +:+ "Язык: " +:+ get r "Language" "N/A" +:+ nl
    +:+ "Страна: " +:+ get r "Country" "N/A" +:+ nl
    +:+ "Награды: " +:+ get r "Awards" "N/A" +:+ nl
    +:+ "IMDb рейтинг: " +:+ get r "imdbRating" "N/A" +:+ "/10 ("
    +:+ get r "imdbVotes" "N/A" +:+ " голосов)" in
  format_movie_info r = before +:+ "Описание: N/A" +:+ after
  ∧ ∀ plot,
      format_movie_info (set_field "Plot" plot r)
      = before +:+ "Описание: " +:+ plot +:+ after.
Proof.
  intros Hplot before after. subst before after.
  assert (Hline : "Описание: " +:+ "N/A" = "Описание: N/A") by reflexivity.
  split.
  - unfold format_movie_info, movie_info_lines. cbn [String.concat].
    replace (get r "Plot" "N/A") with "N/A" by (unfold get; by rewrite Hplot).
    rewrite Hline, !append_assoc. reflexivity.
  - intros plot.
    unfold format_movie_info, movie_info_lines. cbn [String.concat].
    unfold get, set_field; cbn [fields].
    rewrite !lookup_insert. simpl. rewrite !append_assoc. reflexivity.
Qed.

Lemma format_movie_info_without_plot_witness :
  format_movie_info inception
  = "Название: Inception" +:+ nl +:+ "Год: 2010" +:+ nl
    +:+ "Рейтинг: N/A" +:+ nl +:+ "Дата выхода: N/A" +:+ nl
    +:+ "Длительность: N/A" +:+ nl +:+ "Жанр: Action, Sci-Fi" +:+ nl
    +:+ "Режиссер: Christopher Nolan" +:+ nl +:+ "Актеры: N/A" +:+ nl
    +:+ "Описание: N/A" +:+ nl
    +:+ "Язык: N/A" +:+ nl +:+ "Страна: N/A" +:+ nl +:+ "Награды: N/A" +:+ nl
    +:+ "IMDb рейтинг: 8.8/10 (N/A голосов)".
Proof.
  exact (proj1 (format_movie_info_without_plot inception eq_refl)).
Defined.


(** C6 as stated fails for the dataset formatter.  A row whose Overview
    cell is empty prints "nan" on the description line, not "N/A"; and a
    row without the label Overview makes [format_movie_from_csv] raise
    [KeyError]. *)
Lemma format_movie_from_csv_counterexample :
  let row : gmap string (Cell string) :=
    delete "Overview" (sample_row "The Green Mile" "1999" "8.6") in
  row !! "Overview" = None
  ∧ format_movie_from_csv id row = Raise (KeyError "Overview")
  ∧ format_movie_from_csv id (<["Overview" := CNaN]> row) =
      Ok ("Название: The Green Mile" +:+ nl
          +:+ "Год: 1999" +:+ nl
          +:+ "Рейтинг IMDb: 8.6/10" +:+ nl
          +:+ "Жанр: Drama" +:+ nl
          +:+ "Режиссер: Frank Darabont" +:+ nl
          +:+ "Актеры: Tim Robbins, Morgan Freeman, Bob Gunton, William Sadler"
          +:+ nl
          +:+ "Описание: nan" +:+ nl
          +:+ nl
          +:+ "(Источник: IMDb Top 1000 локальный датасет)").
Proof. vm_compute. done. Qed.

(** C6, as the code has it.  [format_movie_info] is a total function, and a
    member it reads that the record lacks is printed exactly as the value
    "N/A" would be.  [format_movie_from_csv] substitutes nothing: on a row
    that carries its ten labels it returns the text of the cells as they
    print (an empty cell prints "nan"), and on a row that lacks one of the
    labels it raises [KeyError] for the first label, in reading order, that
    is missing. *)
Theorem formatters_on_absent_fields {Float} (repr_float : Float → string) :
  (∀ r key, key ∈ info_keys → fields r !! key = None →
     format_movie_info r = format_movie_info (set_field key "N/A" r))
  ∧ (∀ row : gmap string (Cell Float),
       (∀ label, label ∈ csv_labels → is_Some (row !! label)) →
       format_movie_from_csv repr_float row = Ok (csv_text repr_float row))
  ∧ str_Cell repr_float CNaN = "nan"
  ∧ (∀ (row : gmap string (Cell Float)) label,
       label ∈ csv_labels → row !! label = None →
       ∃ before missing after,
         csv_labels = before ++ missing :: after
         ∧ (∀ l, l ∈ before → is_Some (row !! l))
         ∧ row !! missing = None
         ∧ format_movie_from_csv repr_float row = Raise (KeyError missing)).
Proof.
  split; [|split; [|split; [done|]]].
  - intros r key Hkey Hnone.
    unfold format_movie_info, movie_info_lines, get, set_field; cbn [fields].
    unfold info_keys in Hkey.
    repeat (apply elem_of_cons in Hkey as [->|Hkey]);
      [..|by apply elem_of_nil in Hkey];
      rewrite !lookup_insert; cbn [decide];
      by rewrite Hnone.
  - intros row Hall. unfold format_movie_from_csv, csv_text, getitem, cell.
    repeat match goal with
    | |- context [result_bind (match row !! ?label with _ => _ end) _] =>
        let c := fresh "c" in
        destruct (Hall label) as [c ->]; [pick_label|]; cbn [result_bind]
    end.
    done.
  - intros row label Hlabel Hnone.
    unfold format_movie_from_csv, getitem.
    repeat match goal with
    | |- context [result_bind (match row !! ?l with _ => _ end) _] =>
        let Hl := fresh "Hl" in
        destruct (row !! l) eqn:Hl; cbn [result_bind];
          [|first [split_labels 0 l | split_labels 1 l | split_labels 2 l
                  | split_labels 3 l | split_labels 4 l | split_labels 5 l
                  | split_labels 6 l | split_labels 7 l | split_labels 8 l
                  | split_labels 9 l];
            split; [|done];
            intros earlier Hearlier;
            repeat (apply elem_of_cons in Hearlier as [->|Hearlier]);
            [..|by apply elem_of_nil in Hearlier]; by eexists]
    end.
    unfold csv_labels in Hlabel.
    repeat (apply elem_of_cons in Hlabel as [->|Hlabel]); try congruence.
    by apply elem_of_nil in Hlabel.
Qed.

Lemma formatters_on_absent_fields_witness :
  format_movie_info heat = format_movie_info (set_field "Genre" "N/A" heat)
  ∧ format_movie_from_csv id (sample_row "Heat" "1995" "8.3")
    = Ok (csv_text id (sample_row "Heat" "1995" "8.3"))
  ∧ (∃ before missing after,
       csv_labels = before ++ missing :: after
       ∧ (∀ l, l ∈ before →
            is_Some (delete "Star2" (sample_row "Heat" "1995" "8.3") !! l))
       ∧ delete "Star2" (sample_row "Heat" "1995" "8.3") !! missing = None
       ∧ format_movie_from_csv id
           (delete "Star2" (sample_row "Heat" "1995" "8.3"))
         = Raise (KeyError missing)).
Proof.
  destruct (formatters_on_absent_fields (Float := string) id)
    as (Hinfo & Hfull & _ & Hmissing).
  split; [|split].
  - apply Hinfo; [pick_label|reflexivity].
  - apply Hfull. intros label Hlabel. unfold csv_labels in Hlabel.
    repeat (apply elem_of_cons in Hlabel as [->|Hlabel]);
      [..|by apply elem_of_nil in Hlabel]; vm_compute; eauto.
  - apply (Hmissing _ "Star2"); [pick_label|reflexivity].
Defined.

(** ** The search lists *)

Lemma fold_list_step (movies : list (gmap string string)) start output :
  fold_left list_step (enumerate movies start) output
  = output +:+ String.concat "" (imap (λ k, list_line (start + k)) movies).
Proof.
  revert start output.
  induction movies as [|movie movies IH]; intros start output.
  - by rewrite append_empty_r.
  - cbn [enumerate fold_left]. rewrite IH, imap_cons, concat_empty_cons.
    change (list_step output (start, movie))
      with (output +:+ list_line start movie).
    rewrite append_assoc, Nat.add_0_r. do 3 f_equal.
    apply imap_ext. intros k m _. simpl. f_equal. lia.
Qed.

Lemma fold_year_type_step (movies : list (gmap string string)) start output :
  fold_left year_type_step (enumerate movies start) output
  = output
      +:+ String.concat "" (imap (λ k, year_type_line (start + k)) movies).
Proof.
  revert start output.
  induction movies as [|movie movies IH]; intros start output.
  - by rewrite append_empty_r.
  - cbn [enumerate fold_left]. rewrite IH, imap_cons, concat_empty_cons.
    change (year_type_step output (start, movie))
      with (output +:+ year_type_line start movie).
    rewrite append_assoc, Nat.add_0_r. do 3 f_equal.
    apply imap_ext. intros k m _. simpl. f_equal. lia.
Qed.

Section SearchLists.
Context {Delay : Type}.
Variable scale : Delay → Z → Delay.
Variable one_second : Delay.
Variable OMDB_API_KEY : string.
Variable net : Server.

Local Abbreviation api :=
  (call_omdb_api_defaults scale one_second OMDB_API_KEY net).

(** C7, as the code has it.  Let the API answer a search with a record
    whose totalResults is not "0" and whose Search list [movies] is not
    empty.  [search_movies_list] prints, after its heading, the first ten
    movies, in input order and numbered from 1, one line
    "{index}. {title} ({year}) - {type}" each, whatever totalResults says.
    [search_movies_by_year_and_type] prints, after its heading, all the
    movies, in input order and numbered from 1, one line
    "{index}. {title} ({year})" each. *)
Theorem search_lists_rendering (result : Payload)
    (movies : list (gmap string string)) :
  fields result !! "totalResults" ≠ Some "0" →
  Search result = Some movies →
  movies ≠ [] →
  (∀ query year tr tr',
     api (if truthy year
             then <["y" := default "" year]> {["s" := query]}
             else {["s" := query]}) tr = (Ok (Some result), tr') →
     search_movies_list scale one_second OMDB_API_KEY net query year tr =
     (Ok ("Найдено " +:+ get result "totalResults" (pretty (length movies))
            +:+ " фильмов по запросу '" +:+ query +:+ "':" +:+ nl +:+ nl
            +:+ String.concat ""
                  (imap (λ k, list_line (S k)) (take 10 movies))
            +:+ nl +:+ "Используйте search_movie_by_title с точным названием для получения подробной информации."),
      tr'))
  ∧ (∀ query year movie_type tr tr',
       api (<["type" := movie_type]> (<["y" := year]> {["s" := query]})) tr
       = (Ok (Some result), tr') →
       search_movies_by_year_and_type scale one_second OMDB_API_KEY net
         query year movie_type tr =
       (Ok ("Найдено "
              +:+ get result "totalResults" (pretty (length movies))
              +:+ " фильмов (" +:+ year +:+ ", " +:+ movie_type +:+ "):"
              +:+ nl +:+ nl
              +:+ String.concat "" (imap (λ k, year_type_line (S k)) movies)),
        tr')).
Proof.
  intros Htotal Hsearch Hmovies. split.
  - intros query year tr tr' Hlookup.
    unfold search_movies_list, io_bind. rewrite Hlookup.
    rewrite bool_decide_eq_false_2 by done. rewrite Hsearch.
    change (default [] (Some movies)) with movies.
    destruct movies as [|movie rest]; [done|]. cbv beta iota.
    unfold io_ret. rewrite fold_list_step.
    by rewrite !append_assoc.
  - intros query year movie_type tr tr' Hlookup.
    unfold search_movies_by_year_and_type, io_bind. rewrite Hlookup.
    rewrite bool_decide_eq_false_2 by done. rewrite Hsearch.
    change (default [] (Some movies)) with movies.
    destruct movies as [|movie rest]; [done|]. cbv beta iota.
    unfold io_ret. rewrite fold_year_type_step.
    by rewrite !append_assoc.
Qed.
End SearchLists.

Example search_movies_list_fifteen :
  fst (search_movies_list whole_seconds 1%Z "k"
         (always (Json (search_answer 15))) "movie" None [])
  = Ok ("Найдено 15 фильмов по запросу 'movie':" +:+ nl
        +:+ nl
        +:+ "1. Movie 1 (2001) - movie" +:+ nl
        +:+ "2. Movie 2 (2001) - movie" +:+ nl
        +:+ "3. Movie 3 (2001) - movie" +:+ nl
        +:+ "4. Movie 4 (2001) - movie" +:+ nl
        +:+ "5. Movie 5 (2001) - movie" +:+ nl
        +:+ "6. Movie 6 (2001) - movie" +:+ nl
        +:+ "7. Movie 7 (2001) - movie" +:+ nl
        +:+ "8. Movie 8 (2001) - movie" +:+ nl
        +:+ "9. Movie 9 (2001) - movie" +:+ nl
        +:+ "10. Movie 10 (2001) - movie" +:+ nl
        +:+ nl
        +:+ "Используйте search_movie_by_title с точным названием для получения подробной информации.").
Proof. vm_compute. reflexivity. Qed.

(** Fifteen hits: [search_movies_list] prints ten of them, and
    [search_movies_by_year_and_type] all fifteen. *)
Lemma search_lists_rendering_witness :
  let movies := search_hit <$> seq 1 15 in
  fst (search_movies_list whole_seconds 1%Z "k"
         (always (Json (search_answer 15))) "movie" None [])
  = Ok ("Найдено " +:+ get (search_answer 15) "totalResults" (pretty 15)
          +:+ " фильмов по запросу '" +:+ "movie" +:+ "':" +:+ nl +:+ nl
          +:+ String.concat "" (imap (λ k, list_line (S k)) (take 10 movies))
          +:+ nl +:+ "Используйте search_movie_by_title с точным названием для получения подробной информации.")
  ∧ fst (search_movies_by_year_and_type whole_seconds 1%Z "k"
           (always (Json (search_answer 15))) "movie" "2001" "movie" [])
    = Ok ("Найдено " +:+ get (search_answer 15) "totalResults" (pretty 15)
            +:+ " фильмов (" +:+ "2001" +:+ ", " +:+ "movie" +:+ "):"
            +:+ nl +:+ nl
            +:+ String.concat "" (imap (λ k, year_type_line (S k)) movies)).
Proof.
  destruct (search_lists_rendering whole_seconds 1%Z "k"
              (always (Json (search_answer 15)))
              (search_answer 15) (search_hit <$> seq 1 15))
    as [Hlist Hall].
  - vm_compute. discriminate.
  - reflexivity.
  - discriminate.
  - split.
    + erewrite (Hlist "movie" None []); [reflexivity|].
      vm_compute. reflexivity.
    + erewrite (Hall "movie" "2001" "movie" []); [reflexivity|].
      vm_compute. reflexivity.
Defined.

(** C7 as stated fails for [search_movies_by_year_and_type].  On an answer
    with eleven hits it prints eleven lines, and no line names the type. *)
Lemma search_by_year_and_type_counterexample :
  fst (search_movies_by_year_and_type whole_seconds 1%Z "k"
         (always (Json (search_answer 11))) "movie" "2001" "movie" [])
  = Ok ("Найдено 11 фильмов (2001, movie):" +:+ nl
        +:+ nl
        +:+ "1. Movie 1 (2001)" +:+ nl
        +:+ "2. Movie 2 (2001)" +:+ nl
        +:+ "3. Movie 3 (2001)" +:+ nl
        +:+ "4. Movie 4 (2001)" +:+ nl
        +:+ "5. Movie 5 (2001)" +:+ nl
        +:+ "6. Movie 6 (2001)" +:+ nl
        +:+ "7. Movie 7 (2001)" +:+ nl
        +:+ "8. Movie 8 (2001)" +:+ nl
        +:+ "9. Movie 9 (2001)" +:+ nl
        +:+ "10. Movie 10 (2001)" +:+ nl
        +:+ "11. Movie 11 (2001)" +:+ nl).
Proof. vm_compute. reflexivity. Qed.

(** ** The comparison *)

Lemma comparison_text_render (result1 result2 : Payload) :
  comparison_text result1 result2
  = render_comparison (comparison_of result1 result2).
Proof.
  unfold comparison_text, render_comparison, comparison_of, bullet.
  cbn [titles sections fst snd fmap list_fmap comparison_fields render_section
       String.concat].
  generalize (get result1 "Title" "N/A") (get result2 "Title" "N/A")
    (get result1 "Year" "N/A") (get result2 "Year" "N/A")
    (get result1 "Genre" "N/A") (get result2 "Genre" "N/A")
    (get result1 "Director" "N/A") (get result2 "Director" "N/A")
    (get result1 "imdbRating" "N/A") (get result2 "imdbRating" "N/A")
    (get result1 "Runtime" "N/A") (get result2 "Runtime" "N/A")
    (get result1 "Actors" "N/A") (get result2 "Actors" "N/A")
    (get result1 "Awards" "N/A") (get result2 "Awards" "N/A").
  intros. rewrite !append_empty_r, !append_assoc. reflexivity.
Qed.

Lemma comparison_of_swap (result1 result2 : Payload) :
  comparison_of result2 result1 = swap_columns (comparison_of result1 result2).
Proof. reflexivity. Qed.

Section Compare.
Context {Delay : Type}.
Variable scale : Delay → Z → Delay.
Variable one_second : Delay.
Variable OMDB_API_KEY : string.
Variable net : Server.

Local Abbreviation api :=
  (call_omdb_api_defaults scale one_second OMDB_API_KEY net).
Local Abbreviation compare :=
  (compare_two_movies scale one_second OMDB_API_KEY net).

Lemma compare_found title1 title2 result1 result2 tr :
  (∀ tr, fst (api {["t" := title1]} tr) = Ok (Some result1)) →
  (∀ tr, fst (api {["t" := title2]} tr) = Ok (Some result2)) →
  fst (compare title1 title2 tr)
  = Ok (render_comparison (comparison_of result1 result2)).
Proof.
  intros Hfirst Hsecond. unfold compare_two_movies, io_bind.
  pose proof (Hfirst tr) as H1.
  destruct (api {["t" := title1]} tr) as [outcome1 tr1].
  simpl in H1. subst outcome1.
  pose proof (Hsecond tr1) as H2.
  destruct (api {["t" := title2]} tr1) as [outcome2 tr2].
  simpl in H2. subst outcome2.
  simpl. by rewrite comparison_text_render.
Qed.

(** C9.  Let the lookup of each title be a fixed function of the title
    and succeed with [result1] for [title1] and [result2] for [title2].
    Then [compare_two_movies title1 title2] is the layout of the
    comparison of the two records, and [compare_two_movies title2 title1]
    is the layout of the same comparison with its two columns exchanged:
    the same headings in the same order, and under each heading the same
    two bullets, second one first. *)
Theorem compare_two_movies_swapped title1 title2 result1 result2 tr tr' :
  (∀ tr, fst (api {["t" := title1]} tr) = Ok (Some result1)) →
  (∀ tr, fst (api {["t" := title2]} tr) = Ok (Some result2)) →
  fst (compare title1 title2 tr)
  = Ok (render_comparison (comparison_of result1 result2))
  ∧ fst (compare title2 title1 tr')
    = Ok (render_comparison (swap_columns (comparison_of result1 result2))).
Proof.
  intros Hfirst Hsecond. split.
  - by apply compare_found.
  - rewrite <- comparison_of_swap. by apply compare_found.
Qed.
End Compare.

Lemma compare_two_movies_swapped_witness :
  fst (compare_two_movies whole_seconds 1%Z "k" two_titles
         "Inception" "Heat" [])
  = Ok (render_comparison (comparison_of inception heat))
  ∧ fst (compare_two_movies whole_seconds 1%Z "k" two_titles
           "Heat" "Inception" [])
    = Ok (render_comparison (swap_columns (comparison_of inception heat))).
Proof.
  apply (compare_two_movies_swapped whole_seconds 1%Z "k" two_titles
           "Inception" "Heat" inception heat [] []).
  - intros tr. vm_compute. reflexivity.
  - intros tr. vm_compute. reflexivity.
Defined.

(** ** The title search and its fallback *)

Section TitleSearch.
Context {Delay Float : Type}.
Variable scale : Delay → Z → Delay.
Variable one_second : Delay.
Variable OMDB_API_KEY : string.
Variable net : Server.
Variable repr_float : Float → string.
Variable re_compile : string → result string (string → bool).
Variable df : option (DataFrame Float).

Local Abbreviation api :=
  (call_omdb_api_defaults scale one_second OMDB_API_KEY net).
Local Abbreviation search :=
  (search_movie_by_title scale one_second OMDB_API_KEY net repr_float
     re_compile df).
Local Abbreviation title_params title year :=
  (if truthy year then <["y" := default "" year]> {["t" := title]}
   else ({["t" := title]} : gmap string string)).

(** The API is asked first; when it finds the movie the dataset is not
    looked at. *)
Lemma search_movie_by_title_found title year tr result tr' :
  api (title_params title year) tr = (Ok (Some result), tr') →
  search title year tr = (Ok (format_movie_info result), tr').
Proof.
  intros Hlookup. unfold search_movie_by_title, io_bind.
  by rewrite Hlookup.
Qed.

(** When the API finds nothing or fails, the answer is the fallback's. *)
Lemma search_movie_by_title_falls_back title year tr :
  not_found_or_failed (fst (api (title_params title year) tr)) →
  search title year tr =
  (csv_fallback repr_float re_compile df title,
   snd (api (title_params title year) tr)).
Proof.
  intros Hout. unfold search_movie_by_title, io_bind.
  destruct (api (title_params title year) tr) as [[[result|]|e] tr'];
    by simpl in *.
Qed.
End TitleSearch.

Section Fallback.
Context {Float : Type}.
Variable repr_float : Float → string.
Variable re_compile : string → result string (string → bool).

(** Without a dataset the fallback is the not-found message. *)
Lemma csv_fallback_no_dataset title :
  csv_fallback repr_float re_compile None title = Ok (title_not_found title).
Proof. reflexivity. Qed.

(** With a dataset in which no title matches, the fallback is the
    not-found message. *)
Lemma csv_fallback_no_match (frame : DataFrame Float) title mask :
  str_contains re_compile frame "Series_Title" title = Ok mask →
  rows (select frame mask) = [] →
  csv_fallback repr_float re_compile (Some frame) title
  = Ok (title_not_found title).
Proof.
  intros Hmask Hrows. unfold csv_fallback. rewrite Hmask.
  cbn [result_bind]. unfold iterrows. by rewrite Hrows.
Qed.

(** The accessor [.str] accepts the text columns and no other. *)
Lemma str_accessor_text (frame : DataFrame Float) label :
  text_column frame label →
  str_accessor (dtypes frame label) ((λ row, cell row label) <$> rows frame)
  = Ok ((λ row, cell row label) <$> rows frame).
Proof.
  intros [Hdtype Hcells]. rewrite Hdtype. unfold str_accessor.
  destruct Hcells as [(row & s & Hrow & Hcell)|Hempty].
  - replace (existsb is_text ((λ row, cell row label) <$> rows frame))
      with true; [by rewrite andb_false_r|].
    symmetry. apply existsb_exists. exists (CStr s). split; [|done].
    apply list_elem_of_In, list_elem_of_fmap. by exists row.
  - replace (existsb is_number ((λ row, cell row label) <$> rows frame))
      with false; [done|].
    symmetry. apply not_true_is_false. intros Hnumber.
    apply existsb_exists in Hnumber as (c & Hc & Hnumber).
    apply list_elem_of_In, list_elem_of_fmap in Hc as (row & -> & Hrow).
    by rewrite (Hempty row Hrow) in Hnumber.
Qed.

Lemma str_accessor_accepts (frame : DataFrame Float) label col :
  str_accessor (dtypes frame label) ((λ row, cell row label) <$> rows frame)
  = Ok col →
  text_column frame label.
Proof.
  unfold str_accessor.
  destruct (dtypes frame label) eqn:Hdtype; [|done].
  destruct (existsb is_text ((λ row, cell row label) <$> rows frame))
    eqn:Htext.
  - intros _. split; [done|left].
    apply existsb_exists in Htext as (c & Hc & Htext).
    apply list_elem_of_In, list_elem_of_fmap in Hc as (row & -> & Hrow).
    destruct (cell row label) as [s| |] eqn:Hcell; try done.
    by exists row, s.
  - destruct (existsb is_number ((λ row, cell row label) <$> rows frame))
      eqn:Hnumber; [done|].
    intros _. split; [done|right]. intros row Hrow.
    destruct (cell row label) as [s|x|] eqn:Hcell; [| |done].
    + apply not_true_iff_false in Htext. destruct Htext.
      apply existsb_exists. exists (CStr s). split; [|done].
      apply list_elem_of_In, list_elem_of_fmap. by exists row.
    + apply not_true_iff_false in Hnumber. destruct Hnumber.
      apply existsb_exists. exists (CFloat x). split; [|done].
      apply list_elem_of_In, list_elem_of_fmap. by exists row.
Qed.

Lemma str_accessor_no_text (frame : DataFrame Float) label :
  ¬ text_column frame label →
  str_accessor (dtypes frame label) ((λ row, cell row label) <$> rows frame)
  = Raise str_accessor_error.
Proof.
  intros Hno.
  destruct (str_accessor (dtypes frame label)
              ((λ row, cell row label) <$> rows frame)) as [col|e] eqn:Hstr.
  - destruct Hno. by eapply str_accessor_accepts.
  - revert Hstr. unfold str_accessor.
    destruct (dtypes frame label); [|congruence].
    destruct (_ && _); congruence.
Qed.

(** A title that is not a regular expression makes the fallback raise the
    error of [re], on a text column. *)
Lemma csv_fallback_bad_pattern (frame : DataFrame Float) title msg :
  "Series_Title" ∈ columns frame →
  text_column frame "Series_Title" →
  re_compile title = Raise msg →
  csv_fallback repr_float re_compile (Some frame) title
  = Raise (ReError msg).
Proof.
  intros Hcolumn Htext Hcompile. unfold csv_fallback, str_contains, column.
  rewrite bool_decide_eq_true_2 by done. cbn [result_bind].
  rewrite str_accessor_text by done. cbn [result_bind].
  by rewrite Hcompile.
Qed.

(** On a column that is not a text column the fallback raises before the
    title is compiled. *)
Lemma csv_fallback_no_text (frame : DataFrame Float) title :
  "Series_Title" ∈ columns frame →
  ¬ text_column frame "Series_Title" →
  csv_fallback repr_float re_compile (Some frame) title
  = Raise str_accessor_error.
Proof.
  intros Hcolumn Hno. unfold csv_fallback, str_contains, column.
  rewrite bool_decide_eq_true_2 by done. cbn [result_bind].
  by rewrite str_accessor_no_text.
Qed.

(** Whether a column is a text column can be decided. *)
Lemma text_column_dec (frame : DataFrame Float) label :
  text_column frame label ∨ ¬ text_column frame label.
Proof.
  destruct (str_accessor (dtypes frame label)
              ((λ row, cell row label) <$> rows frame)) as [col|e] eqn:Hstr.
  - left. by eapply str_accessor_accepts.
  - right. intros Htext. by rewrite str_accessor_text in Hstr.
Qed.
End Fallback.

(** C4 fails on the code.  When the API finds nothing or fails, the dataset
    is loaded and has the column Series_Title, and the title does not
    compile as a regular expression, [search_movie_by_title] raises instead
    of returning a text: the error of [re] when Series_Title is a text
    column, and the error of the accessor [.str], which comes first,
    when it is not. *)
Theorem search_movie_by_title_raises {Delay Float : Type}
    (scale : Delay → Z → Delay) (one_second : Delay) (OMDB_API_KEY : string)
    (net : Server) (repr_float : Float → string)
    (re_compile : string → result string (string → bool))
    (frame : DataFrame Float) (title : string) (year : option string)
    (msg : string) (tr : list (Event Delay)) :
  not_found_or_failed
    (fst (call_omdb_api_defaults scale one_second OMDB_API_KEY net
            (if truthy year then <["y" := default "" year]> {["t" := title]}
             else {["t" := title]}) tr)) →
  "Series_Title" ∈ columns frame →
  re_compile title = Raise msg →
  ∃ e,
    fst (search_movie_by_title scale one_second OMDB_API_KEY net repr_float
           re_compile (Some frame) title year tr)
    = Raise e
    ∧ (text_column frame "Series_Title" → e = ReError msg)
    ∧ (¬ text_column frame "Series_Title" → e = str_accessor_error).
Proof.
  intros Hout Hcolumn Hcompile.
  rewrite search_movie_by_title_falls_back by done. cbn [fst].
  destruct (text_column_dec frame "Series_Title") as [Htext|Hno].
  - exists (ReError msg).
    by rewrite (csv_fallback_bad_pattern repr_float re_compile frame title msg).
  - exists str_accessor_error. by rewrite csv_fallback_no_text.
Qed.

(** The title "*batteries not included", not found by the API, with the
    sample dataset loaded. *)
Lemma search_movie_by_title_raises_witness :
  fst (search_movie_by_title whole_seconds 1%Z "k"
         (always (Json (failure "Movie not found!"))) id sample_re_compile
         (Some sample_frame) "*batteries not included" None [])
  = Raise (ReError "nothing to repeat at position 0").
Proof.
  destruct (search_movie_by_title_raises whole_seconds 1%Z "k"
              (always (Json (failure "Movie not found!"))) id
              sample_re_compile sample_frame "*batteries not included" None
              "nothing to repeat at position 0" [])
    as (e & Hraise & Htext & _).
  - vm_compute. exact I.
  - pick_label.
  - reflexivity.
  - rewrite Hraise. f_equal. apply Htext. sample_text_column.
Defined.

(** The same title on a dataset whose Series_Title cells are all empty:
    the accessor raises before the title is compiled. *)
Example search_movie_by_title_no_titles :
  fst (search_movie_by_title whole_seconds 1%Z "k"
         (always (Json (failure "Movie not found!"))) id sample_re_compile
         (Some (emptied "Series_Title" sample_frame))
         "*batteries not included" None [])
  = Raise (AttributeError "Can only use .str accessor with string values!").
Proof. vm_compute. reflexivity. Qed.

Example search_movie_by_title_from_dataset :
  fst (search_movie_by_title whole_seconds 1%Z "k"
         (always (Json (failure "Movie not found!"))) id sample_re_compile
         (Some sample_frame) "shawshank" None [])
  = Ok ("Название: The Shawshank Redemption" +:+ nl
        +:+ "Год: 1994" +:+ nl
        +:+ "Рейтинг IMDb: 9.3/10" +:+ nl
        +:+ "Жанр: Drama" +:+ nl
        +:+ "Режиссер: Frank Darabont" +:+ nl
        +:+ "Актеры: Tim Robbins, Morgan Freeman, Bob Gunton, William Sadler"
        +:+ nl
        +:+ "Описание: Two men bond." +:+ nl
        +:+ nl
        +:+ "(Источник: IMDb Top 1000 локальный датасет)").
Proof. vm_compute. reflexivity. Qed.

Example search_movie_by_title_nowhere :
  fst (search_movie_by_title whole_seconds 1%Z "k"
         (always (Json (failure "Movie not found!"))) id sample_re_compile
         (Some sample_frame) "Alien" None [])
  = Ok (title_not_found "Alien").
Proof. vm_compute. reflexivity. Qed.

(** ** The dataset tools without a dataset *)

Section NoDataset.
Context {Float : Type}.
Variable repr_float : Float → string.
Variable float_ge : Float → Float → bool.
Variable re_compile : string → result string (string → bool).
Variable nlargest :
  Z → string → DataFrame Float → result PyExn (DataFrame Float).

(** C5.  When [read_csv] raises [e], module initialisation prints a
    warning and leaves [df = None]; it raises nothing.  From then on each
    of the four dataset tools returns the text
    "Локальный датасет IMDb Top 1000 недоступен.", whatever its
    arguments. *)
Theorem dataset_tools_unavailable (e : PyExn) :
  module_init (Float := Float) (Raise e)
  = (None, ["Warning: Could not load CSV dataset: " +:+ str_PyExn e])
  ∧ let df := fst (module_init (Float := Float) (Raise e)) in
    (∀ genre limit,
       get_top_movies_by_genre repr_float re_compile nlargest df genre limit
       = Ok unavailable)
    ∧ (∀ director,
         get_movies_by_director repr_float re_compile df director
         = Ok unavailable)
    ∧ (∀ actor,
         get_movies_by_actor repr_float re_compile df actor = Ok unavailable)
    ∧ (∀ min_rating genre limit,
         get_movies_by_rating repr_float float_ge re_compile nlargest df
           min_rating genre limit
         = Ok unavailable)
    ∧ unavailable = "Локальный датасет IMDb Top 1000 недоступен.".
Proof. repeat split. Qed.
End NoDataset.


(** ** The retry loop on an arbitrary server *)

Lemma retry_trace_snoc {Delay} (pause : Z → Delay) params n attempt :
  retry_trace pause params (S (S n)) attempt
  = EvGet params :: EvSleep (pause attempt)
      :: retry_trace pause params (S n) (attempt + 1).
Proof. reflexivity. Qed.

Lemma retry_trace_ext {Delay} (pause pause' : Z → Delay) params n attempt :
  (∀ a, (attempt ≤ a < attempt + Z.of_nat n - 1)%Z → pause a = pause' a) →
  retry_trace pause params n attempt = retry_trace pause' params n attempt.
Proof.
  revert attempt. induction n as [|n IH]; intros attempt Hext; [done|].
  destruct n as [|n]; [done|].
  rewrite !retry_trace_snoc, Hext by lia. do 2 f_equal.
  apply IH. intros a Ha. apply Hext. lia.
Qed.

Section Runs.
Context {Delay : Type}.
Variable scale : Delay → Z → Delay.
Variable net : Server.
Variable params : gmap string string.
Variable max_retries : Z.
Variable retry_delay : Delay.

Local Abbreviation loop := (attempts scale net params max_retries retry_delay).

(** A run of the loop from the attempt numbered [attempt], whose answer is
    the GET numbered [base + attempt] of the session: it makes [n] attempts;
    all answers but the last are retryable, the last accounts for the
    outcome, and the trace grows by the [n] GETs with the pauses between
    them. *)
Lemma attempts_run todo attempt tr (base : Z) :
  (Z.of_nat (S todo) + attempt = max_retries)%Z →
  (Z.of_nat (count_gets tr) = base + attempt)%Z →
  ∃ n, 1 ≤ n ≤ S todo
       ∧ snd (loop (S todo) attempt tr)
         = tr ++ retry_trace
                   (λ a, pause_after scale retry_delay
                           (net (Z.to_nat (base + a)) params) a)
                   params n attempt
       ∧ (∀ i, i < n - 1 → retryable (net (count_gets tr + i) params) = true)
       ∧ explains (net (count_gets tr + (n - 1)) params) (n = S todo)
           (fst (loop (S todo) attempt tr)).
Proof.
  revert attempt tr.
  induction todo as [|todo IH]; intros attempt tr Hsum Hbase;
    rewrite attempts_step; cbn zeta.
  - rewrite bool_decide_eq_false_2 by lia.
    exists 1. rewrite Nat.add_0_r.
    split; [lia|]. split; [|split; [intros i Hi; lia|]].
    + by repeat case_match.
    + unfold rate_limited.
      destruct (net (count_gets tr) params) as [data| |e] eqn:Hnet; simpl;
        [|done..].
      destruct (response_false data) eqn:Hfalse; [|done].
      destruct (mentions "limit" data || mentions "quota" data) eqn:Hlimit.
      { simpl. split; [done|]. exists data. by rewrite Hfalse, Hlimit. }
      apply orb_false_iff in Hlimit as [Hlimit Hquota].
      destruct (mentions "not found" data) eqn:Hnf; simpl; by exists data.
  - rewrite bool_decide_eq_true_2 by lia.
    assert (∀ d,
      retryable (net (count_gets tr) params) = true →
      d = pause_after scale retry_delay (net (count_gets tr) params) attempt →
      let run := loop (S todo) (attempt + 1)%Z
                   ((tr ++ [EvGet params]) ++ [EvSleep d]) in
      ∃ n, 1 ≤ n ≤ S (S todo)
        ∧ snd run
          = tr ++ retry_trace
                    (λ a, pause_after scale retry_delay
                            (net (Z.to_nat (base + a)) params) a)
                    params n attempt
        ∧ (∀ i, i < n - 1 → retryable (net (count_gets tr + i) params) = true)
        ∧ explains (net (count_gets tr + (n - 1)) params) (n = S (S todo))
            (fst run)) as Hnext.
    { intros d Hretry Hd run. subst run.
      destruct (IH (attempt + 1)%Z ((tr ++ [EvGet params]) ++ [EvSleep d]))
        as (n & Hn & Htr & Hmid & Hlast); [lia| |].
      { rewrite count_gets_sleep, count_gets_get. lia. }
      rewrite count_gets_sleep, count_gets_get in Hmid, Hlast.
      exists (S n). split; [lia|]. split; [|split].
      - rewrite Htr. destruct n as [|n]; [lia|].
        rewrite retry_trace_snoc, <- !app_assoc. simpl. do 3 f_equal.
        rewrite Hd. by replace (Z.to_nat (base + attempt)) with (count_gets tr)
          by lia.
      - intros [|i] Hi; [by rewrite Nat.add_0_r|].
        replace (count_gets tr + S i) with (S (count_gets tr) + i) by lia.
        apply Hmid. lia.
      - replace (count_gets tr + (S n - 1)) with (S (count_gets tr) + (n - 1))
          by lia.
        assert ((n = S todo) ↔ (S n = S (S todo))) as Hiff by lia.
        destruct (fst (loop _ _ _)) as [[?|]|[]]; simpl in *;
          intuition lia. }
    assert (∀ r : result OMDBAPIError (option Payload),
      explains (net (count_gets tr) params) False r →
      ∃ n, 1 ≤ n ≤ S (S todo)
        ∧ snd (r, tr ++ [EvGet params])
          = tr ++ retry_trace
                    (λ a, pause_after scale retry_delay
                            (net (Z.to_nat (base + a)) params) a)
                    params n attempt
        ∧ (∀ i, i < n - 1 → retryable (net (count_gets tr + i) params) = true)
        ∧ explains (net (count_gets tr + (n - 1)) params) (n = S (S todo))
            (fst (r, tr ++ [EvGet params]))) as Hstop.
    { intros r Hr. exists 1. rewrite Nat.add_0_r.
      split; [lia|]. split; [done|]. split; [intros i Hi; lia|].
      destruct r as [[?|]|[]]; simpl in *; intuition lia. }
    unfold retryable, rate_limited in Hnext.
    destruct (net (count_gets tr) params) as [data| |e] eqn:Hnet;
      [|by apply Hnext..].
    destruct (response_false data) eqn:Hfalse; [|by apply Hstop].
    destruct (mentions "limit" data || mentions "quota" data) eqn:Hlimit.
    { by apply Hnext. }
    apply orb_false_iff in Hlimit as [Hlimit Hquota].
    destruct (mentions "not found" data) eqn:Hnf; apply Hstop; simpl;
      by exists data.
Qed.
End Runs.

Lemma get_in_retry_trace {Delay} (pause : Z → Delay) params n attempt p :
  EvGet p ∈ retry_trace pause params n attempt → p = params.
Proof.
  revert attempt. induction n as [|n IH]; intros attempt Hin.
  - by apply elem_of_nil in Hin.
  - destruct n as [|n].
    + apply list_elem_of_singleton in Hin. by injection Hin.
    + rewrite retry_trace_snoc in Hin.
      apply elem_of_cons in Hin as [Hin|Hin]; [by injection Hin|].
      apply elem_of_cons in Hin as [Hin|Hin]; [done|]. by eapply IH.
Qed.

Lemma length_sleeps_retry_trace {Delay} (pause : Z → Delay) params n attempt :
  length (sleeps (retry_trace pause params n attempt)) = n - 1.
Proof.
  destruct n as [|n]; [done|].
  rewrite sleeps_retry_trace, length_fmap, length_seqZ. lia.
Qed.

(** What an answer of each kind allows as the outcome. *)
Lemma explains_transient last (spent : Prop) r :
  transient last = true →
  explains last spent r →
  spent ∧ match last with
          | TransportTimeout => r = Raise Timeout
          | RequestException e => r = Raise (Network e)
          | Json _ => False
          end.
Proof.
  intros Hlast Hr.
  destruct last as [data| |e]; [done|..];
    destruct r as [[?|]|[]]; simpl in Hr;
    repeat match goal with
    | H : ∃ _, _ |- _ => destruct H as (? & H)
    | H : _ ∧ _ |- _ => destruct H
    end; simplify_eq; done.
Qed.

Lemma explains_retryable last (spent : Prop) r :
  retryable last = true → explains last spent r → spent.
Proof.
  intros Hlast Hr. unfold retryable in Hlast.
  destruct (transient last) eqn:Htransient.
  { by apply explains_transient in Hr as [? _]. }
  simpl in Hlast.
  destruct r as [[?|]|[]]; simpl in Hr;
    repeat match goal with
    | H : ∃ _, _ |- _ => destruct H as (? & H)
    | H : _ ∧ _ |- _ => destruct H
    end; simplify_eq; try done; simpl in Hlast;
    repeat match goal with
    | H : response_false _ = _ |- _ => rewrite H in Hlast
    | H : mentions _ _ = _ |- _ => rewrite H in Hlast
    end; done.
Qed.

Lemma explains_settled data (spent : Prop) r :
  rate_limited (Json data) = false →
  explains (Json data) spent r →
  r = settled data.
Proof.
  intros Hdata Hr. unfold settled.
  destruct r as [[?|]|[]]; simpl in Hr;
    repeat match goal with
    | H : ∃ _, _ |- _ => destruct H as (? & H)
    | H : _ ∧ _ |- _ => destruct H
    end; simplify_eq; try done;
    repeat match goal with
    | H : response_false _ = _ |- _ => rewrite H
    | H : mentions _ _ = _ |- _ => rewrite H
    end; try done; simpl in *; congruence.
Qed.

Section CallRuns.
Context {Delay : Type}.
Variable scale : Delay → Z → Delay.
Variable OMDB_API_KEY : string.
Variable net : Server.
Variable params : gmap string string.
Variable max_retries : Z.
Variable retry_delay : Delay.

Local Abbreviation _params := (params ∪ {["apikey" := OMDB_API_KEY]}).
Local Abbreviation call :=
  (call_omdb_api scale OMDB_API_KEY net params max_retries retry_delay).

(** The run of a configured call with at least one attempt. *)
Lemma call_run tr :
  OMDB_API_KEY ≠ "" →
  (1 ≤ max_retries)%Z →
  ∃ n, 1 ≤ n ≤ Z.to_nat max_retries
       ∧ snd (call tr)
         = tr ++ retry_trace
                   (λ a, pause_after scale retry_delay
                           (net (count_gets tr + Z.to_nat a) _params) a)
                   _params n 0
       ∧ (∀ i, i < n - 1 → retryable (net (count_gets tr + i) _params) = true)
       ∧ explains (net (count_gets tr + (n - 1)) _params)
           (n = Z.to_nat max_retries) (fst (call tr)).
Proof.
  intros Hkey Hmax. rewrite call_configured by done.
  destruct (Z.to_nat max_retries) as [|todo] eqn:Htodo; [lia|].
  destruct (attempts_run scale net _params max_retries retry_delay todo 0 tr
              (Z.of_nat (count_gets tr)))
    as (n & Hn & Htr & Hmid & Hlast); [lia..|].
  exists n. split; [done|]. split; [|done].
  rewrite Htr. f_equal. apply retry_trace_ext. intros a Ha.
  do 2 f_equal. lia.
Qed.

(** The requests of a configured call, for any [max_retries]. *)
Lemma call_requests tr :
  OMDB_API_KEY ≠ "" →
  ∃ n, n ≤ Z.to_nat max_retries
       ∧ snd (call tr)
         = tr ++ retry_trace
                   (λ a, pause_after scale retry_delay
                           (net (count_gets tr + Z.to_nat a) _params) a)
                   _params n 0.
Proof.
  intros Hkey. destruct (decide (1 ≤ max_retries)%Z) as [Hmax|Hmax].
  - destruct (call_run tr) as (n & Hn & Htr & _); [done..|].
    exists n. split; [lia|done].
  - exists 0. rewrite call_configured by done.
    replace (Z.to_nat max_retries) with 0 by lia.
    by rewrite app_nil_r.
Qed.

(** X1.  Whatever the server answers, a configured call sends at most
    [max_retries] requests (none when [max_retries <= 0], at least one
    otherwise), and its trace is: request, pause, request, ..., request.
    The pause after a payload is [retry_delay * (attempt + 1)], the pause
    after a transport failure is [retry_delay]; nothing precedes the first
    request and nothing follows the last. *)
Theorem call_trace_shape tr :
  OMDB_API_KEY ≠ "" →
  ∃ n new,
    n ≤ Z.to_nat max_retries
    ∧ ((1 ≤ max_retries)%Z → 1 ≤ n)
    ∧ snd (call tr) = tr ++ new
    ∧ new = retry_trace
              (λ a, pause_after scale retry_delay
                      (net (count_gets tr + Z.to_nat a) _params) a)
              _params n 0
    ∧ count_gets new = n
    ∧ length (sleeps new) = n - 1.
Proof.
  intros Hkey. destruct (decide (1 ≤ max_retries)%Z) as [Hmax|Hmax].
  - destruct (call_run tr) as (n & Hn & Htr & _); [done..|].
    exists n. eexists. split; [lia|]. split; [lia|].
    split; [exact Htr|]. split; [done|].
    by rewrite count_gets_retry_trace, length_sleeps_retry_trace.
  - exists 0, []. rewrite call_configured by done.
    replace (Z.to_nat max_retries) with 0 by lia.
    rewrite app_nil_r. repeat split; lia.
Qed.

(** X2.  The outcome of a configured call with [max_retries >= 1] is
    accounted for by the answer to its last request: data are returned only
    from a payload that is not Response "False"; [None] only for a message
    with "not found" and without "limit" and "quota"; the API error only
    for a message with none of the three; and the rate-limit, timeout and
    network errors only when that answer is the matching failure and all
    [max_retries] attempts are spent. *)
Theorem call_outcome_explained tr :
  OMDB_API_KEY ≠ "" →
  (1 ≤ max_retries)%Z →
  explains (net (count_gets (snd (call tr)) - 1) _params)
    (count_gets (snd (call tr)) = count_gets tr + Z.to_nat max_retries)
    (fst (call tr)).
Proof.
  intros Hkey Hmax.
  destruct (call_run tr) as (n & Hn & Htr & _ & Hlast); [done..|].
  rewrite Htr, count_gets_app, count_gets_retry_trace.
  replace (count_gets tr + n - 1) with (count_gets tr + (n - 1)) by lia.
  assert ((n = Z.to_nat max_retries)
          ↔ (count_gets tr + n = count_gets tr + Z.to_nat max_retries))
    as Hiff by lia.
  destruct (fst (call tr)) as [[?|]|[]]; simpl in *; intuition lia.
Qed.

(** X3.  When every attempt fails in the transport, by a timeout or by
    another request error in any mixture, a configured call with
    [max_retries >= 1] makes exactly [max_retries] attempts with a pause of
    [retry_delay] between them and raises the error of the last attempt:
    the timeout error after a timeout, the network error with the
    exception's text otherwise. *)
Theorem transport_failures_exhaust tr :
  OMDB_API_KEY ≠ "" →
  (1 ≤ max_retries)%Z →
  (∀ n p, transient (net n p) = true) →
  snd (call tr)
  = tr ++ retry_trace (λ _, retry_delay) _params (Z.to_nat max_retries) 0
  ∧ match net (count_gets tr + (Z.to_nat max_retries - 1)) _params with
    | TransportTimeout => fst (call tr) = Raise Timeout
    | RequestException e => fst (call tr) = Raise (Network e)
    | Json _ => False
    end.
Proof.
  intros Hkey Hmax Hfail.
  destruct (call_run tr) as (n & Hn & Htr & _ & Hlast); [done..|].
  apply explains_transient in Hlast as [-> Hlast]; [|done].
  split; [|done].
  rewrite Htr. f_equal. apply retry_trace_ext. intros a _.
  pose proof (Hfail (count_gets tr + Z.to_nat a) _params) as Hnow.
  revert Hnow. cbv beta.
  destruct (net (count_gets tr + Z.to_nat a) _params); simpl; done.
Qed.

(** X4.  Recovery.  When the first [k] answers to a configured call are
    retryable (transport failures or rate-limit payloads), [k] is less than
    [max_retries], and the next answer is a payload that is not a rate-limit
    one, the call ends with the outcome of that payload after exactly
    [k + 1] requests and [k] pauses. *)
Theorem call_recovers tr (k : nat) data :
  OMDB_API_KEY ≠ "" →
  k < Z.to_nat max_retries →
  (∀ i, i < k → retryable (net (count_gets tr + i) _params) = true) →
  net (count_gets tr + k) _params = Json data →
  rate_limited (Json data) = false →
  ∃ new,
    call tr = (settled data, tr ++ new)
    ∧ new = retry_trace
              (λ a, pause_after scale retry_delay
                      (net (count_gets tr + Z.to_nat a) _params) a)
              _params (S k) 0
    ∧ count_gets new = S k
    ∧ length (sleeps new) = k.
Proof.
  intros Hkey Hk Hfirst Hnet Hterminal.
  destruct (call_run tr) as (n & Hn & Htr & Hmid & Hlast); [done|lia|].
  assert (n = S k) as ->.
  { destruct (decide (n - 1 < k)) as [Hlt|Hge].
    - apply explains_retryable in Hlast; [lia|]. by apply Hfirst.
    - destruct (decide (k < n - 1)) as [Hgt|Hle]; [|lia].
      pose proof (Hmid k Hgt) as Hretry.
      unfold retryable in Hretry. by rewrite Hnet, Hterminal in Hretry. }
  replace (S k - 1) with k in Hlast by lia. rewrite Hnet in Hlast.
  apply explains_settled in Hlast; [|done].
  eexists. split; [|split; [reflexivity|]].
  - by rewrite (surjective_pairing (call tr)), Hlast, Htr.
  - rewrite count_gets_retry_trace, length_sleeps_retry_trace.
    split; [done|lia].
Qed.

(** X5.  Every request of a configured call carries the caller's parameters
    unchanged, and the parameter apikey: the configured key, unless the
    caller passed an apikey of its own, which then wins. *)
Theorem request_parameters tr p :
  OMDB_API_KEY ≠ "" →
  (∃ new,
     snd (call_omdb_api scale OMDB_API_KEY net params max_retries
            retry_delay tr) = tr ++ new
     ∧ EvGet p ∈ new) →
  (∀ k, k ≠ "apikey" → p !! k = params !! k)
  ∧ p !! "apikey" = Some (default OMDB_API_KEY (params !! "apikey")).
Proof.
  intros Hkey (new & Htr & Hin).
  destruct (call_requests tr) as (n & _ & Htr'); [done|].
  rewrite Htr' in Htr. apply app_inv_head in Htr. subst new.
  apply get_in_retry_trace in Hin as ->.
  split.
  - intros k Hk. rewrite lookup_union, lookup_singleton_ne by done.
    by destruct (params !! k).
  - rewrite lookup_union, lookup_singleton_eq.
    by destruct (params !! "apikey").
Qed.
End CallRuns.

(** *** Runs on sample servers *)

Lemma call_trace_shape_witness :
  ∃ n new,
    n ≤ Z.to_nat 3
    ∧ ((1 ≤ 3)%Z → 1 ≤ n)
    ∧ snd (call_omdb_api whole_seconds "k"
             (after_timeouts 1 (Json inception)) ∅ 3 1%Z [])
      = [] ++ new
    ∧ new = retry_trace
              (λ a, pause_after whole_seconds 1%Z
                      (after_timeouts 1 (Json inception)
                         (count_gets (Delay := Z) [] + Z.to_nat a)
                         (∅ ∪ {["apikey" := "k"]})) a)
              (∅ ∪ {["apikey" := "k"]}) n 0
    ∧ count_gets new = n
    ∧ length (sleeps new) = n - 1.
Proof.
  apply (call_trace_shape whole_seconds "k"
           (after_timeouts 1 (Json inception)) ∅ 3 1%Z []).
  discriminate.
Defined.

Lemma call_outcome_explained_witness :
  let run :=
    call_omdb_api whole_seconds "k" (after_timeouts 1 (Json inception))
      ∅ 3 1%Z [] in
  explains
    (after_timeouts 1 (Json inception) (count_gets (snd run) - 1)
       (∅ ∪ {["apikey" := "k"]}))
    (count_gets (snd run) = count_gets (Delay := Z) [] + Z.to_nat 3)
    (fst run).
Proof.
  apply (call_outcome_explained whole_seconds "k"
           (after_timeouts 1 (Json inception)) ∅ 3 1%Z []).
  - discriminate.
  - lia.
Defined.

Lemma transport_failures_exhaust_witness :
  snd (call_omdb_api whole_seconds "k" flaky ∅ 3 5%Z [])
  = [] ++ retry_trace (λ _, 5%Z) (∅ ∪ {["apikey" := "k"]}) (Z.to_nat 3) 0
  ∧ fst (call_omdb_api whole_seconds "k" flaky ∅ 3 5%Z [])
    = Raise (Network "Connection refused").
Proof.
  apply (transport_failures_exhaust whole_seconds "k" flaky ∅ 3 5%Z []).
  - discriminate.
  - lia.
  - intros [|n] p; reflexivity.
Defined.

Lemma call_recovers_witness :
  ∃ new,
    call_omdb_api whole_seconds "k" (after_timeouts 2 (Json inception))
      ∅ 3 1%Z []
    = (Ok (Some inception), [] ++ new)
    ∧ new = retry_trace
              (λ a, pause_after whole_seconds 1%Z
                      (after_timeouts 2 (Json inception)
                         (count_gets (Delay := Z) [] + Z.to_nat a)
                         (∅ ∪ {["apikey" := "k"]})) a)
              (∅ ∪ {["apikey" := "k"]}) 3 0
    ∧ count_gets new = 3
    ∧ length (sleeps new) = 2.
Proof.
  apply (call_recovers whole_seconds "k" (after_timeouts 2 (Json inception))
           ∅ 3 1%Z [] 2 inception).
  - discriminate.
  - vm_compute. lia.
  - intros [|[|i]] Hi; [reflexivity..|lia].
  - reflexivity.
  - vm_compute. reflexivity.
Defined.

Lemma request_parameters_witness :
  let p : gmap string string :=
    {["t" := "Heat"; "apikey" := "mine"]} ∪ {["apikey" := "k"]} in
  (∀ k, k ≠ "apikey" →
     p !! k = ({["t" := "Heat"; "apikey" := "mine"]} : gmap string string) !! k)
  ∧ p !! "apikey"
    = Some (default "k"
              (({["t" := "Heat"; "apikey" := "mine"]} : gmap string string)
                 !! "apikey")).
Proof.
  apply (request_parameters whole_seconds "k" two_titles
           {["t" := "Heat"; "apikey" := "mine"]} 3 1%Z []).
  - discriminate.
  - eexists. split; [vm_compute; reflexivity|]. apply list_elem_of_here.
Defined.


(** ** The API tools at their boundary *)

Section ToolBoundary.
Context {Delay Float : Type}.
Variable scale : Delay → Z → Delay.
Variable one_second : Delay.
Variable OMDB_API_KEY : string.
Variable net : Server.
Variable repr_float : Float → string.
Variable re_compile : string → result string (string → bool).
Variable df : option (DataFrame Float).

Local Abbreviation api :=
  (call_omdb_api_defaults scale one_second OMDB_API_KEY net).

(** One lookup with the default arguments sends at most three requests and
    pauses at most twice; without a key it does nothing. *)
Lemma api_budget params tr :
  ∃ new, snd (api params tr) = tr ++ new
         ∧ count_gets new ≤ 3
         ∧ length (sleeps new) ≤ 2
         ∧ (OMDB_API_KEY = "" → new = []).
Proof.
  unfold call_omdb_api_defaults.
  destruct (decide (OMDB_API_KEY = "")) as [Hkey|Hkey].
  - exists []. unfold call_omdb_api. rewrite bool_decide_eq_true_2 by done.
    rewrite app_nil_r. repeat split; simpl. all: try (done || compute; lia).
  - destruct (call_requests scale OMDB_API_KEY net params 3 one_second tr)
      as (n & Hn & Htr); [done|].
    eexists. split; [exact Htr|]. split; [|split; [|done]].
    + rewrite count_gets_retry_trace. lia.
    + rewrite length_sleeps_retry_trace. lia.
Qed.

Local Ltac budget_of p t new Hgets Hkey :=
  let H := fresh "H" in
  destruct (api_budget p t) as (new & H & Hgets & _ & Hkey);
  destruct (api p t) as [? ?]; simpl in H; subst.

(** X6.  The five API tools stay within a request budget, whatever the
    server does: [compare_two_movies] sends at most six requests and every
    other tool at most three; and without a configured key none of them
    sends a request or pauses. *)
Theorem api_tools_request_budget tr :
  (∀ title year,
     ∃ new, snd (search_movie_by_title scale one_second OMDB_API_KEY net
                   repr_float re_compile df title year tr) = tr ++ new
            ∧ count_gets new ≤ 3 ∧ (OMDB_API_KEY = "" → new = []))
  ∧ (∀ query year,
       ∃ new, snd (search_movies_list scale one_second OMDB_API_KEY net
                     query year tr) = tr ++ new
              ∧ count_gets new ≤ 3 ∧ (OMDB_API_KEY = "" → new = []))
  ∧ (∀ imdb_id,
       ∃ new, snd (get_movie_by_id scale one_second OMDB_API_KEY net
                     imdb_id tr) = tr ++ new
              ∧ count_gets new ≤ 3 ∧ (OMDB_API_KEY = "" → new = []))
  ∧ (∀ query year movie_type,
       ∃ new, snd (search_movies_by_year_and_type scale one_second
                     OMDB_API_KEY net query year movie_type tr) = tr ++ new
              ∧ count_gets new ≤ 3 ∧ (OMDB_API_KEY = "" → new = []))
  ∧ (∀ title1 title2,
       ∃ new, snd (compare_two_movies scale one_second OMDB_API_KEY net
                     title1 title2 tr) = tr ++ new
              ∧ count_gets new ≤ 6 ∧ (OMDB_API_KEY = "" → new = [])).
Proof.
  repeat split.
  - intros title year. unfold search_movie_by_title, io_bind.
    match goal with |- context [api ?p tr] => budget_of p tr new Hgets Hkey end.
    exists new. by repeat case_match.
  - intros query year. unfold search_movies_list, io_bind.
    match goal with |- context [api ?p tr] => budget_of p tr new Hgets Hkey end.
    exists new. by repeat case_match.
  - intros imdb_id. unfold get_movie_by_id, io_bind.
    match goal with |- context [api ?p tr] => budget_of p tr new Hgets Hkey end.
    exists new. by repeat case_match.
  - intros query year movie_type.
    unfold search_movies_by_year_and_type, io_bind.
    match goal with |- context [api ?p tr] => budget_of p tr new Hgets Hkey end.
    exists new. by repeat case_match.
  - intros title1 title2. unfold compare_two_movies, io_bind.
    budget_of ({["t" := title1]} : gmap string string) tr new1 Hgets1 Hkey1.
    match goal with |- context [match ?o with _ => _ end] =>
      destruct o as [result1|e] end.
    + budget_of ({["t" := title2]} : gmap string string) (tr ++ new1) new2
        Hgets2 Hkey2.
      exists (new1 ++ new2). rewrite count_gets_app, app_assoc.
      split; [by repeat case_match|]. split; [lia|].
      intros Hkey. by rewrite Hkey1, Hkey2.
    + exists new1. split; [done|]. split; [lia|done].
Qed.

(** X9.  The failures of [compare_two_movies].  When the first lookup
    raises, the answer is the error text and the second title is never
    looked up.  When the first lookup returns (a record or [None]) and the
    second raises, the answer is again the error text, even if the first
    film was not found; the "first film not found" text needs both lookups
    to return. *)
Theorem compare_two_movies_failures title1 title2 tr :
  (∀ e, fst (api {["t" := title1]} tr) = Raise e →
     compare_two_movies scale one_second OMDB_API_KEY net title1 title2 tr
     = (Ok ("Ошибка при сравнении фильмов: " +:+ str_OMDBAPIError e),
        snd (api {["t" := title1]} tr)))
  ∧ (∀ result1 e,
       fst (api {["t" := title1]} tr) = Ok result1 →
       fst (api {["t" := title2]} (snd (api {["t" := title1]} tr))) = Raise e →
       fst (compare_two_movies scale one_second OMDB_API_KEY net
              title1 title2 tr)
       = Ok ("Ошибка при сравнении фильмов: " +:+ str_OMDBAPIError e))
  ∧ (∀ result2,
       fst (api {["t" := title1]} tr) = Ok None →
       fst (api {["t" := title2]} (snd (api {["t" := title1]} tr)))
       = Ok result2 →
       fst (compare_two_movies scale one_second OMDB_API_KEY net
              title1 title2 tr)
       = Ok ("Первый фильм '" +:+ title1 +:+ "' не найден."))
  ∧ (∀ result1,
       fst (api {["t" := title1]} tr) = Ok (Some result1) →
       fst (api {["t" := title2]} (snd (api {["t" := title1]} tr)))
       = Ok None →
       fst (compare_two_movies scale one_second OMDB_API_KEY net
              title1 title2 tr)
       = Ok ("Второй фильм '" +:+ title2 +:+ "' не найден.")).
Proof.
  unfold compare_two_movies, io_bind.
  destruct (api {["t" := title1]} tr) as [outcome1 tr1]; simpl.
  repeat split.
  - by intros e ->.
  - intros result1 e -> H2.
    destruct (api {["t" := title2]} tr1) as [outcome2 tr2]; simpl in *.
    by subst.
  - intros result2 -> H2.
    destruct (api {["t" := title2]} tr1) as [outcome2 tr2]; simpl in *.
    by subst.
  - intros result1 -> H2.
    destruct (api {["t" := title2]} tr1) as [outcome2 tr2]; simpl in *.
    by subst.
Qed.
End ToolBoundary.

Example compare_first_missing_second_fails :
  fst (compare_two_movies whole_seconds 1%Z "k" heat_times_out
         "Nowhere" "Heat" [])
  = Ok "Ошибка при сравнении фильмов: Request timeout: OMDB API did not respond in time".
Proof. vm_compute. reflexivity. Qed.

Example compare_first_fails :
  compare_two_movies whole_seconds 1%Z "k" heat_times_out "Heat" "Nowhere" []
  = (Ok "Ошибка при сравнении фильмов: Request timeout: OMDB API did not respond in time",
     [ EvGet {["t" := "Heat"; "apikey" := "k"]}; EvSleep 1%Z;
       EvGet {["t" := "Heat"; "apikey" := "k"]}; EvSleep 1%Z;
       EvGet {["t" := "Heat"; "apikey" := "k"]} ]).
Proof. vm_compute. reflexivity. Qed.

(** X8.  Without a configured key no tool sends a request.
    [search_movie_by_title] does not report the missing key: it answers
    from the dataset alone.  Each of the other four API tools returns its
    error text with the configuration message. *)
Theorem tools_without_key {Delay Float : Type} (scale : Delay → Z → Delay)
    (one_second : Delay) (net : Server) (repr_float : Float → string)
    (re_compile : string → result string (string → bool))
    (df : option (DataFrame Float)) (tr : list (Event Delay)) :
  let config := str_OMDBAPIError ConfigurationError in
  (∀ title year,
     search_movie_by_title scale one_second "" net repr_float re_compile df
       title year tr
     = (csv_fallback repr_float re_compile df title, tr))
  ∧ (∀ query year,
       search_movies_list scale one_second "" net query year tr
       = (Ok ("Ошибка при поиске фильмов: " +:+ config), tr))
  ∧ (∀ title1 title2,
       compare_two_movies scale one_second "" net title1 title2 tr
       = (Ok ("Ошибка при сравнении фильмов: " +:+ config), tr))
  ∧ (∀ imdb_id,
       get_movie_by_id scale one_second "" net imdb_id tr
       = (Ok ("Ошибка при получении информации о фильме: " +:+ config), tr))
  ∧ (∀ query year movie_type,
       search_movies_by_year_and_type scale one_second "" net
         query year movie_type tr
       = (Ok ("Ошибка при поиске: " +:+ config), tr)).
Proof. repeat split. Qed.


(** ** The dataset when it is loaded *)

Section DatasetFacts.
Context {Float : Type}.
Variable repr_float : Float → string.
Variable re_compile : string → result string (string → bool).
Implicit Types (frame : DataFrame Float) (row : gmap string (Cell Float)).

(** A row read as a Series carries exactly the labels of its frame. *)
Lemma series_lookup frame row label :
  series frame row !! label
  = if bool_decide (label ∈ columns frame) then Some (cell row label)
    else None.
Proof.
  unfold series. induction (columns frame) as [|c cs IH].
  - by rewrite bool_decide_eq_false_2 by apply not_elem_of_nil.
  - cbn [fmap list_fmap list_to_map foldr]. simpl.
    destruct (decide (c = label)) as [->|Hne].
    + rewrite lookup_insert_eq.
      by rewrite bool_decide_eq_true_2 by apply list_elem_of_here.
    + rewrite lookup_insert_ne by done. rewrite IH.
      rewrite (bool_decide_ext (label ∈ c :: cs) (label ∈ cs)); [done|].
      rewrite elem_of_cons. intuition congruence.
Qed.

Lemma cell_series frame row label :
  label ∈ columns frame → cell (series frame row) label = cell row label.
Proof.
  intros Hin. unfold cell at 1.
  by rewrite series_lookup, bool_decide_eq_true_2.
Qed.

Lemma getitem_series frame row label :
  label ∈ columns frame →
  getitem (series frame row) label = Ok (cell row label).
Proof.
  intros Hin. unfold getitem.
  by rewrite series_lookup, bool_decide_eq_true_2.
Qed.

(** Selecting by a mask computed row by row is filtering. *)
Lemma select_fmap frame (f : gmap string (Cell Float) → bool) :
  select frame (f <$> rows frame)
  = {| columns := columns frame;
       dtypes := dtypes frame;
       rows := filter (λ row, f row = true) (rows frame) |}.
Proof.
  unfold select. f_equal.
  induction (rows frame) as [|row rs IH]; [done|].
  cbn [fmap list_fmap zip zip_with]. rewrite !filter_cons. simpl.
  destruct (decide (f row = true)); simpl; by rewrite <- IH.
Qed.

Lemma str_contains_ok frame label pat search :
  label ∈ columns frame →
  text_column frame label →
  re_compile pat = Ok search →
  str_contains re_compile frame label pat
  = Ok ((λ row, matches search (cell row label)) <$> rows frame).
Proof.
  intros Hin Htext Hpat. unfold str_contains, column.
  rewrite bool_decide_eq_true_2 by done. cbn [result_bind].
  rewrite str_accessor_text by done. cbn [result_bind].
  rewrite Hpat. by rewrite <- list_fmap_compose.
Qed.

Lemma str_contains_bad_pattern frame label pat msg :
  label ∈ columns frame →
  text_column frame label →
  re_compile pat = Raise msg →
  str_contains re_compile frame label pat = Raise (ReError msg).
Proof.
  intros Hin Htext Hpat. unfold str_contains, column.
  rewrite bool_decide_eq_true_2 by done. cbn [result_bind].
  rewrite str_accessor_text by done. cbn [result_bind].
  by rewrite Hpat.
Qed.

Lemma str_contains_no_text frame label pat :
  label ∈ columns frame →
  ¬ text_column frame label →
  str_contains re_compile frame label pat = Raise str_accessor_error.
Proof.
  intros Hin Hno. unfold str_contains, column.
  rewrite bool_decide_eq_true_2 by done. cbn [result_bind].
  by rewrite str_accessor_no_text.
Qed.

(** What a filter on the column [label] raises for a pattern that does not
    compile. *)
Lemma str_contains_raises frame label pat msg :
  label ∈ columns frame →
  re_compile pat = Raise msg →
  ∃ e, str_contains re_compile frame label pat = Raise e
       ∧ (text_column frame label → e = ReError msg)
       ∧ (¬ text_column frame label → e = str_accessor_error).
Proof.
  intros Hin Hpat.
  destruct (text_column_dec frame label) as [Htext|Hno].
  - exists (ReError msg). by rewrite (str_contains_bad_pattern _ _ _ msg).
  - exists str_accessor_error. by rewrite str_contains_no_text.
Qed.

Lemma format_movie_from_csv_series frame row :
  (∀ label, label ∈ csv_labels → label ∈ columns frame) →
  format_movie_from_csv repr_float (series frame row)
  = Ok (csv_text repr_float row).
Proof.
  intros Hall. unfold format_movie_from_csv, csv_text.
  rewrite !getitem_series by (apply Hall; pick_label).
  reflexivity.
Qed.

Lemma rating_line_series frame row :
  (∀ label, label ∈ rating_labels → label ∈ columns frame) →
  rating_line repr_float (series frame row)
  = Ok (rating_text repr_float row).
Proof.
  intros Hall. unfold rating_line, rating_text.
  rewrite !getitem_series by (apply Hall; pick_label).
  reflexivity.
Qed.

Lemma rating_lines frame (rs : list (gmap string (Cell Float))) :
  (∀ label, label ∈ rating_labels → label ∈ columns frame) →
  result_map (rating_line repr_float) (series frame <$> rs)
  = Ok (rating_text repr_float <$> rs).
Proof.
  intros Hall. induction rs as [|row rs IH]; [done|].
  cbn [fmap list_fmap result_map].
  rewrite rating_line_series by done. cbn [result_bind].
  change (list_fmap _ _ (series frame) rs) with (series frame <$> rs).
  change (list_fmap _ _ (rating_text repr_float) rs)
    with (rating_text repr_float <$> rs).
  by rewrite IH.
Qed.

(** X10.  The fallback on a well-formed dataset.  When the dataset has the
    ten columns that [format_movie_from_csv] reads, Series_Title is a text
    column, and the title compiles as a regular expression, the fallback of
    [search_movie_by_title] does not raise: it returns the text of the
    first row, in dataset order, whose Series_Title is text in which the
    pattern is found, and the not-found message when there is no such
    row. *)
Theorem csv_fallback_total frame title search :
  (∀ label, label ∈ csv_labels → label ∈ columns frame) →
  text_column frame "Series_Title" →
  re_compile title = Ok search →
  csv_fallback repr_float re_compile (Some frame) title
  = Ok match hits search "Series_Title" frame with
       | row :: _ => csv_text repr_float row
       | [] => title_not_found title
       end.
Proof.
  intros Hall Htext Hpat. unfold csv_fallback, hits.
  rewrite (str_contains_ok _ _ _ search) by (done || apply Hall; pick_label).
  cbn [result_bind]. rewrite select_fmap. unfold iterrows. cbn [rows columns].
  destruct (filter _ (rows frame)) as [|row rest]; [done|].
  cbn [fmap list_fmap].
  by rewrite (format_movie_from_csv_series
                {| columns := columns frame; dtypes := dtypes frame;
                   rows := row :: rest |} row Hall).
Qed.

(** X11.  [get_movies_by_director] on a loaded dataset that has the text
    column Director and the three columns of a listing line, for a name
    that compiles as a regular expression: it lists exactly the rows whose
    Director is text in which the pattern is found, one line each in
    dataset order, and returns the not-found text when there is none. *)
Theorem get_movies_by_director_lists frame director search :
  "Director" ∈ columns frame →
  text_column frame "Director" →
  (∀ label, label ∈ rating_labels → label ∈ columns frame) →
  re_compile director = Ok search →
  get_movies_by_director repr_float re_compile (Some frame) director
  = Ok match hits search "Director" frame with
       | [] =>
           "Фильмы режиссера '" +:+ director
             +:+ "' не найдены в датасете IMDb Top 1000."
       | found =>
           "Фильмы режиссера " +:+ director +:+ " (из IMDb Top 1000):"
             +:+ nl +:+ nl
             +:+ String.concat nl (rating_text repr_float <$> found)
       end.
Proof.
  intros Hcolumn Htext Hall Hpat. unfold get_movies_by_director, hits.
  rewrite (str_contains_ok _ _ _ search) by done.
  cbn [result_bind]. rewrite select_fmap. unfold is_empty, iterrows.
  cbn [rows columns].
  destruct (filter _ (rows frame)) as [|row rest]; [done|].
  cbv beta iota.
  by rewrite (rating_lines
                {| columns := columns frame; dtypes := dtypes frame;
                   rows := row :: rest |}) by done.
Qed.

(** X12.  [get_movies_by_actor] on a loaded dataset that has the four star
    columns, each of them a text column, and the three columns of a listing
    line, for a name that compiles as a regular expression: it lists
    exactly the rows in which at least one of Star1 to Star4 is text in
    which the pattern is found, one line each in dataset order, and returns
    the not-found text when there is none. *)
Theorem get_movies_by_actor_lists frame actor search :
  (∀ label, label ∈ star_labels → label ∈ columns frame) →
  (∀ label, label ∈ star_labels → text_column frame label) →
  (∀ label, label ∈ rating_labels → label ∈ columns frame) →
  re_compile actor = Ok search →
  get_movies_by_actor repr_float re_compile (Some frame) actor
  = Ok match filter (λ row, existsb (λ label, matches search (cell row label))
                              star_labels = true) (rows frame) with
       | [] =>
           "Фильмы с актером '" +:+ actor
             +:+ "' не найдены в датасете IMDb Top 1000."
       | found =>
           "Фильмы с " +:+ actor +:+ " (из IMDb Top 1000):" +:+ nl +:+ nl
             +:+ String.concat nl (rating_text repr_float <$> found)
       end.
Proof.
  intros Hstars Htext Hall Hpat. unfold get_movies_by_actor.
  rewrite !(str_contains_ok _ _ _ search)
    by (done || (apply Hstars; pick_label) || (apply Htext; pick_label)).
  cbn [result_bind].
  repeat rewrite ?zip_with_fmap_l, ?zip_with_fmap_r, ?zip_with_diag.
  rewrite select_fmap.
  unfold is_empty, iterrows. cbn [rows columns].
  rewrite (list_filter_iff _
             (λ row, existsb (λ label, matches search (cell row label))
                       star_labels = true)); cycle 1.
  { intros row. cbn. by rewrite orb_false_r, !orb_assoc. }
  destruct (filter _ (rows frame)) as [|row rest]; [done|].
  cbv beta iota.
  by rewrite (rating_lines
                {| columns := columns frame; dtypes := dtypes frame;
                   rows := row :: rest |}) by done.
Qed.

(** X13.  On a loaded dataset, a filter text that does not compile as a
    regular expression makes the dataset tools raise instead of returning a
    text: [get_top_movies_by_genre] (column Genre),
    [get_movies_by_director] (column Director) and [get_movies_by_actor]
    (column Star1, the first it filters).  The exception is the error of
    [re] when the column is a text column, and the error of the accessor
    [.str], which is raised before the pattern is compiled, when it is
    not. *)
Theorem dataset_tools_bad_pattern frame pat msg :
  re_compile pat = Raise msg →
  (∀ nlargest limit, "Genre" ∈ columns frame →
     ∃ e, get_top_movies_by_genre repr_float re_compile nlargest
            (Some frame) pat limit
          = Raise e
          ∧ (text_column frame "Genre" → e = ReError msg)
          ∧ (¬ text_column frame "Genre" → e = str_accessor_error))
  ∧ ("Director" ∈ columns frame →
       ∃ e, get_movies_by_director repr_float re_compile (Some frame) pat
            = Raise e
            ∧ (text_column frame "Director" → e = ReError msg)
            ∧ (¬ text_column frame "Director" → e = str_accessor_error))
  ∧ ("Star1" ∈ columns frame →
       ∃ e, get_movies_by_actor repr_float re_compile (Some frame) pat
            = Raise e
            ∧ (text_column frame "Star1" → e = ReError msg)
            ∧ (¬ text_column frame "Star1" → e = str_accessor_error)).
Proof.
  intros Hpat. repeat split.
  - intros nlargest limit Hin. unfold get_top_movies_by_genre.
    destruct (str_contains_raises frame "Genre" pat msg) as (e & -> & He);
      [done..|].
    by exists e.
  - intros Hin. unfold get_movies_by_director.
    destruct (str_contains_raises frame "Director" pat msg) as (e & -> & He);
      [done..|].
    by exists e.
  - intros Hin. unfold get_movies_by_actor.
    destruct (str_contains_raises frame "Star1" pat msg) as (e & -> & He);
      [done..|].
    by exists e.
Qed.

(** X25.  [get_top_movies_by_genre] on a loaded dataset with the text
    column Genre, for a genre that compiles as a regular expression: when
    no row's
    Genre is text in which the pattern is found, it returns the not-found
    text without ranking anything; otherwise it ranks exactly the matching
    rows, in dataset order, by IMDB_Rating with the given limit, and prints
    one line for each row of the ranking. *)
Theorem get_top_movies_by_genre_lists frame genre search limit
    (nlargest : Z → string → DataFrame Float → result PyExn (DataFrame Float)) :
  "Genre" ∈ columns frame →
  text_column frame "Genre" →
  re_compile genre = Ok search →
  (hits search "Genre" frame = [] →
     get_top_movies_by_genre repr_float re_compile nlargest (Some frame)
       genre limit
     = Ok ("Фильмы жанра '" +:+ genre +:+ "' не найдены в датасете."))
  ∧ (∀ top,
       hits search "Genre" frame ≠ [] →
       nlargest limit "IMDB_Rating"
         {| columns := columns frame; dtypes := dtypes frame;
            rows := hits search "Genre" frame |}
       = Ok top →
       (∀ label, label ∈ rating_labels → label ∈ columns top) →
       get_top_movies_by_genre repr_float re_compile nlargest (Some frame)
         genre limit
       = Ok ("Топ-" +:+ pretty limit +:+ " фильмов жанра " +:+ genre
               +:+ " (из IMDb Top 1000):" +:+ nl +:+ nl
               +:+ String.concat ""
                     ((λ row, rating_text repr_float row +:+ nl)
                        <$> rows top))).
Proof.
  intros Hcolumn Htext Hpat. unfold get_top_movies_by_genre, hits.
  rewrite (str_contains_ok _ _ _ search) by done.
  cbn [result_bind]. rewrite select_fmap. unfold is_empty. cbn [rows].
  split.
  - by intros ->.
  - intros top Hfound Htop Hall.
    destruct (filter _ (rows frame)) as [|row rest]; [done|].
    rewrite Htop. cbn [result_bind]. unfold iterrows.
    rewrite rating_lines by done. cbn [result_bind].
    by rewrite <- list_fmap_compose.
Qed.

Lemma column_ge_numeric float_ge frame label x :
  label ∈ columns frame →
  Forall (λ row, numeric (cell row label) = true) (rows frame) →
  column_ge float_ge frame label x
  = Ok ((λ row, at_least float_ge x (cell row label)) <$> rows frame).
Proof.
  intros Hin Hnum. unfold column_ge, column.
  rewrite bool_decide_eq_true_2 by done. cbn [result_bind].
  induction Hnum as [|row rs Hrow Hrs IH]; [done|].
  cbn [fmap list_fmap result_map].
  change (list_fmap _ _ (λ row, cell row label) rs)
    with ((λ row, cell row label) <$> rs).
  rewrite IH.
  by destruct (cell row label).
Qed.

Lemma rating_block_series frame row :
  (∀ label, label ∈ rating_labels → label ∈ columns frame) →
  "Genre" ∈ columns frame →
  "Director" ∈ columns frame →
  rating_block repr_float (series frame row)
  = Ok (rating_block_text repr_float row).
Proof.
  intros Hall Hgenre Hdirector. unfold rating_block, rating_block_text.
  rewrite rating_line_series by done. cbn [result_bind].
  by rewrite !getitem_series by done.
Qed.

Lemma rating_blocks frame (rs : list (gmap string (Cell Float))) :
  (∀ label, label ∈ rating_labels → label ∈ columns frame) →
  "Genre" ∈ columns frame →
  "Director" ∈ columns frame →
  result_map (rating_block repr_float) (series frame <$> rs)
  = Ok (rating_block_text repr_float <$> rs).
Proof.
  intros Hall Hgenre Hdirector. induction rs as [|row rs IH]; [done|].
  cbn [fmap list_fmap result_map].
  rewrite rating_block_series by done. cbn [result_bind].
  change (list_fmap _ _ (series frame) rs) with (series frame <$> rs).
  change (list_fmap _ _ (rating_block_text repr_float) rs)
    with (rating_block_text repr_float <$> rs).
  by rewrite IH.
Qed.

(** X26.  [get_movies_by_rating] without a genre ([None] or the empty
    text), on a loaded dataset whose column IMDB_Rating holds numbers or
    empty cells: it compiles no pattern; when no rating is at least
    [min_rating] it returns the not-found text without ranking anything;
    otherwise it ranks exactly the rows whose rating is at least
    [min_rating] (empty cells are left out), in dataset order, with the
    given limit, and prints one block for each row of the ranking. *)
Theorem get_movies_by_rating_lists float_ge frame min_rating genre limit
    (nlargest : Z → string → DataFrame Float → result PyExn (DataFrame Float)) :
  truthy genre = false →
  "IMDB_Rating" ∈ columns frame →
  Forall (λ row, numeric (cell row "IMDB_Rating") = true) (rows frame) →
  let kept :=
    filter (λ row, at_least float_ge min_rating (cell row "IMDB_Rating")
                   = true) (rows frame) in
  (kept = [] →
     get_movies_by_rating repr_float float_ge re_compile nlargest
       (Some frame) min_rating genre limit
     = Ok ("Фильмы с рейтингом ≥ " +:+ repr_float min_rating
             +:+ " не найдены в датасете."))
  ∧ (∀ top,
       kept ≠ [] →
       nlargest limit "IMDB_Rating"
         {| columns := columns frame; dtypes := dtypes frame;
            rows := kept |} = Ok top →
       (∀ label, label ∈ rating_labels → label ∈ columns top) →
       "Genre" ∈ columns top →
       "Director" ∈ columns top →
       get_movies_by_rating repr_float float_ge re_compile nlargest
         (Some frame) min_rating genre limit
       = Ok ("Фильмы с рейтингом ≥ " +:+ repr_float min_rating
               +:+ " (из IMDb Top 1000):" +:+ nl +:+ nl
               +:+ String.concat ""
                     (rating_block_text repr_float <$> rows top))).
Proof.
  intros Hgenre Hcolumn Hnum kept. subst kept.
  unfold get_movies_by_rating.
  rewrite column_ge_numeric by done. cbn [result_bind].
  rewrite select_fmap, Hgenre. cbn [result_bind].
  unfold is_empty. cbn [rows]. split.
  - by intros ->.
  - intros top Hfound Htop Hall Hg Hd.
    destruct (filter _ (rows frame)) as [|row rest]; [done|].
    rewrite Htop. cbn [result_bind]. unfold iterrows.
    by rewrite rating_blocks by done.
Qed.
End DatasetFacts.

(** *** The loaded dataset on the samples *)

Lemma csv_fallback_total_witness :
  csv_fallback id sample_re_compile (Some sample_frame) "green"
  = Ok match hits (λ x, str_in (str_lower "green") (str_lower x))
               "Series_Title" sample_frame with
       | row :: _ => csv_text id row
       | [] => title_not_found "green"
       end.
Proof.
  apply (csv_fallback_total id sample_re_compile sample_frame "green").
  - intros label Hlabel. exact Hlabel.
  - sample_text_column.
  - reflexivity.
Defined.

Lemma get_movies_by_director_lists_witness :
  get_movies_by_director id sample_re_compile (Some sample_frame) "darabont"
  = Ok match hits (λ x, str_in (str_lower "darabont") (str_lower x))
               "Director" sample_frame with
       | [] =>
           "Фильмы режиссера '" +:+ "darabont"
             +:+ "' не найдены в датасете IMDb Top 1000."
       | found =>
           "Фильмы режиссера " +:+ "darabont" +:+ " (из IMDb Top 1000):"
             +:+ nl +:+ nl +:+ String.concat nl (rating_text id <$> found)
       end.
Proof.
  apply (get_movies_by_director_lists id sample_re_compile sample_frame
           "darabont").
  - pick_label.
  - sample_text_column.
  - intros label Hlabel. unfold rating_labels in Hlabel.
    repeat (apply elem_of_cons in Hlabel as [->|Hlabel]);
      [..|by apply elem_of_nil in Hlabel]; pick_label.
  - reflexivity.
Defined.

Lemma get_movies_by_actor_lists_witness :
  get_movies_by_actor id sample_re_compile (Some sample_frame) "freeman"
  = Ok match filter
               (λ row,
                  existsb
                    (λ label,
                       matches
                         (λ x, str_in (str_lower "freeman") (str_lower x))
                         (cell row label))
                    star_labels = true)
               (rows sample_frame) with
       | [] =>
           "Фильмы с актером '" +:+ "freeman"
             +:+ "' не найдены в датасете IMDb Top 1000."
       | found =>
           "Фильмы с " +:+ "freeman" +:+ " (из IMDb Top 1000):" +:+ nl +:+ nl
             +:+ String.concat nl (rating_text id <$> found)
       end.
Proof.
  apply (get_movies_by_actor_lists id sample_re_compile sample_frame
           "freeman").
  - intros label Hlabel. unfold star_labels in Hlabel.
    repeat (apply elem_of_cons in Hlabel as [->|Hlabel]);
      [..|by apply elem_of_nil in Hlabel]; pick_label.
  - intros label Hlabel. unfold star_labels in Hlabel.
    repeat (apply elem_of_cons in Hlabel as [->|Hlabel]);
      [..|by apply elem_of_nil in Hlabel]; sample_text_column.
  - intros label Hlabel. unfold rating_labels in Hlabel.
    repeat (apply elem_of_cons in Hlabel as [->|Hlabel]);
      [..|by apply elem_of_nil in Hlabel]; pick_label.
  - reflexivity.
Defined.

Example get_movies_by_actor_freeman :
  get_movies_by_actor id sample_re_compile (Some sample_frame) "freeman"
  = Ok ("Фильмы с freeman (из IMDb Top 1000):" +:+ nl
        +:+ nl
        +:+ "The Shawshank Redemption (1994) - 9.3/10" +:+ nl
        +:+ "The Green Mile (1999) - 8.6/10").
Proof. vm_compute. reflexivity. Qed.

(** With the cells of Star4 all empty the actor filter raises, although
    Star2 of both rows matches. *)
Example get_movies_by_actor_empty_star4 :
  get_movies_by_actor id sample_re_compile
    (Some (emptied "Star4" sample_frame)) "freeman"
  = Raise (AttributeError "Can only use .str accessor with string values!").
Proof. vm_compute. reflexivity. Qed.

Lemma dataset_tools_bad_pattern_witness :
  (∀ nlargest limit, "Genre" ∈ columns sample_frame →
     ∃ e, get_top_movies_by_genre id sample_re_compile nlargest
            (Some sample_frame) "*" limit
          = Raise e
          ∧ (text_column sample_frame "Genre"
             → e = ReError "nothing to repeat at position 0")
          ∧ (¬ text_column sample_frame "Genre" → e = str_accessor_error))
  ∧ ("Director" ∈ columns sample_frame →
       ∃ e, get_movies_by_director id sample_re_compile (Some sample_frame)
              "*"
            = Raise e
            ∧ (text_column sample_frame "Director"
               → e = ReError "nothing to repeat at position 0")
            ∧ (¬ text_column sample_frame "Director"
               → e = str_accessor_error))
  ∧ ("Star1" ∈ columns sample_frame →
       ∃ e, get_movies_by_actor id sample_re_compile (Some sample_frame) "*"
            = Raise e
            ∧ (text_column sample_frame "Star1"
               → e = ReError "nothing to repeat at position 0")
            ∧ (¬ text_column sample_frame "Star1"
               → e = str_accessor_error)).
Proof.
  apply (dataset_tools_bad_pattern id sample_re_compile sample_frame "*").
  reflexivity.
Defined.

Lemma get_top_movies_by_genre_lists_witness :
  (hits (λ x, str_in (str_lower "drama") (str_lower x)) "Genre" sample_frame
   = [] →
   get_top_movies_by_genre id sample_re_compile sample_nlargest
     (Some sample_frame) "drama" 1
   = Ok ("Фильмы жанра '" +:+ "drama" +:+ "' не найдены в датасете."))
  ∧ (∀ top,
       hits (λ x, str_in (str_lower "drama") (str_lower x)) "Genre"
         sample_frame ≠ [] →
       sample_nlargest 1 "IMDB_Rating"
         {| columns := columns sample_frame;
            dtypes := dtypes sample_frame;
            rows := hits (λ x, str_in (str_lower "drama") (str_lower x))
                      "Genre" sample_frame |}
       = Ok top →
       (∀ label, label ∈ rating_labels → label ∈ columns top) →
       get_top_movies_by_genre id sample_re_compile sample_nlargest
         (Some sample_frame) "drama" 1
       = Ok ("Топ-" +:+ pretty 1%Z +:+ " фильмов жанра " +:+ "drama"
               +:+ " (из IMDb Top 1000):" +:+ nl +:+ nl
               +:+ String.concat ""
                     ((λ row, rating_text id row +:+ nl) <$> rows top))).
Proof.
  apply (get_top_movies_by_genre_lists id sample_re_compile sample_frame
           "drama").
  - pick_label.
  - sample_text_column.
  - reflexivity.
Defined.

Example get_top_movies_by_genre_drama :
  get_top_movies_by_genre id sample_re_compile sample_nlargest
    (Some sample_frame) "drama" 1
  = Ok ("Топ-1 фильмов жанра drama (из IMDb Top 1000):" +:+ nl
        +:+ nl
        +:+ "The Shawshank Redemption (1994) - 9.3/10" +:+ nl).
Proof. vm_compute. reflexivity. Qed.

Lemma get_movies_by_rating_lists_witness :
  let kept :=
    filter (λ row, at_least sample_float_ge "9.0" (cell row "IMDB_Rating") = true)
      (rows sample_frame) in
  (kept = [] →
     get_movies_by_rating id sample_float_ge sample_re_compile
       sample_nlargest (Some sample_frame) "9.0" None 10
     = Ok ("Фильмы с рейтингом ≥ " +:+ id "9.0"
             +:+ " не найдены в датасете."))
  ∧ (∀ top,
       kept ≠ [] →
       sample_nlargest 10 "IMDB_Rating"
         {| columns := columns sample_frame; dtypes := dtypes sample_frame;
            rows := kept |} = Ok top →
       (∀ label, label ∈ rating_labels → label ∈ columns top) →
       "Genre" ∈ columns top →
       "Director" ∈ columns top →
       get_movies_by_rating id sample_float_ge sample_re_compile
         sample_nlargest (Some sample_frame) "9.0" None 10
       = Ok ("Фильмы с рейтингом ≥ " +:+ id "9.0"
               +:+ " (из IMDb Top 1000):" +:+ nl +:+ nl
               +:+ String.concat "" (rating_block_text id <$> rows top))).
Proof.
  apply (get_movies_by_rating_lists id sample_re_compile sample_float_ge
           sample_frame "9.0" None 10 sample_nlargest).
  - reflexivity.
  - pick_label.
  - repeat constructor.
Defined.

Example get_movies_by_rating_nine :
  get_movies_by_rating id sample_float_ge sample_re_compile sample_nlargest
    (Some sample_frame) "9.0" None 10
  = Ok ("Фильмы с рейтингом ≥ 9.0 (из IMDb Top 1000):" +:+ nl
        +:+ nl
        +:+ "The Shawshank Redemption (1994) - 9.3/10" +:+ nl
        +:+ "  Жанр: Drama" +:+ nl
        +:+ "  Режиссер: Frank Darabont" +:+ nl
        +:+ nl).
Proof. vm_compute. reflexivity. Qed.

(** ** What [format_movie_info] reads *)

(** X14.  [format_movie_info] reads the fourteen members of [info_keys] and
    nothing else: two records that agree on them are printed alike,
    whatever their other members (Response, Poster, Search, ...) are. *)
Theorem format_movie_info_reads_only (r r' : Payload) :
  (∀ key, key ∈ info_keys → fields r !! key = fields r' !! key) →
  format_movie_info r = format_movie_info r'.
Proof.
  intros Hagree. unfold format_movie_info, movie_info_lines, get.
  rewrite !Hagree by pick_label. reflexivity.
Qed.

Lemma format_movie_info_reads_only_witness :
  format_movie_info heat
  = format_movie_info
      {| fields := <["Poster" := "N/A"]> (delete "Response" (fields heat));
         Search := Some [] |}.
Proof.
  apply format_movie_info_reads_only.
  intros key Hkey. unfold info_keys in Hkey.
  repeat (apply elem_of_cons in Hkey as [->|Hkey]);
    [..|by apply elem_of_nil in Hkey]; reflexivity.
Defined.


(** ** [parse_arguments] *)

Lemma fold_flag (flag : string → bool) (args : list string) (verbose : bool) :
  fold_left (λ verbose arg, if flag arg then true else verbose) args verbose
  = true
  ↔ verbose = true ∨ ∃ arg, arg ∈ args ∧ flag arg = true.
Proof.
  revert verbose. induction args as [|arg args IH]; intros verbose.
  - simpl. split; [by left|]. intros [?|(arg & Hin & _)]; [done|].
    by apply elem_of_nil in Hin.
  - cbn [fold_left]. rewrite IH. split.
    + intros [Hnow|(arg' & Hin & Hflag)].
      * destruct (flag arg) eqn:Hflag; [|by left].
        right. exists arg. split; [apply list_elem_of_here|done].
      * right. exists arg'. split; [by apply list_elem_of_further|done].
    + intros [->|(arg' & Hin & Hflag)].
      * left. by destruct (flag arg).
      * apply elem_of_cons in Hin as [->|Hin].
        -- left. by rewrite Hflag.
        -- right. by exists arg'.
Qed.

(** X15.  [parse_arguments] returns a dictionary with the single key
    verbose, and verbose is true exactly when "--verbose" or "-v" is among
    the arguments after the program name; the program name itself, the
    other arguments, their order and repetitions do not matter. *)
Theorem parse_arguments_verbose (argv : list string) :
  ∃ verbose,
    parse_arguments argv = {["verbose" := verbose]}
    ∧ (verbose = true ↔ "--verbose" ∈ drop 1 argv ∨ "-v" ∈ drop 1 argv).
Proof.
  eexists. split; [reflexivity|]. rewrite fold_flag. split.
  - intros [?|(arg & Hin & Hflag)]; [done|].
    apply bool_decide_eq_true in Hflag.
    apply elem_of_cons in Hflag as [->|Hflag]; [by left|].
    apply list_elem_of_singleton in Hflag as ->. by right.
  - intros [Hin|Hin]; right; eexists; (split; [exact Hin|]);
      apply bool_decide_eq_true; pick_label.
Qed.

(** ** [format_output] *)

Lemma concat_empty_app (l1 l2 : list string) :
  String.concat "" (l1 ++ l2) = String.concat "" l1 +:+ String.concat "" l2.
Proof.
  induction l1 as [|x l1 IH]; [done|].
  rewrite <- app_comm_cons, !concat_empty_cons, IH. by rewrite append_assoc.
Qed.

Lemma appended_app (f1 f2 : list (string * option string)) :
  appended (f1 ++ f2) = appended f1 +:+ appended f2.
Proof. unfold appended. by rewrite fmap_app, concat_empty_app. Qed.

(** Cutting at the first separator loses nothing, and the part before the
    cut is free of the separator. *)
Lemma cut_spec (sep : ascii) (s before after : string) :
  cut sep s = Some (before, after) →
  s = before +:+ String sep after ∧ lacks sep before = true.
Proof.
  revert before. induction s as [|c rest IH]; intros before Hcut; [done|].
  cbn [cut] in Hcut. destruct (Ascii.eqb c sep) eqn:Hc.
  - apply Ascii.eqb_eq in Hc as ->. by simplify_eq.
  - destruct (cut sep rest) as [[b a]|] eqn:Hrest; [|done].
    simplify_eq. destruct (IH b eq_refl) as [-> Hlacks].
    split; [done|]. cbn [lacks]. by rewrite Hc, Hlacks.
Qed.

Lemma cut_none (sep : ascii) (s : string) :
  cut sep s = None ↔ lacks sep s = true.
Proof.
  induction s as [|c rest IH]; [done|].
  cbn [cut lacks]. destruct (Ascii.eqb c sep); simpl.
  - split; intros; done.
  - rewrite <- IH. destruct (cut sep rest) as [[b a]|]; split; intros; done.
Qed.

(** [sep in s] for a separator of one character *)
Lemma str_in_char (sep : ascii) (s : string) :
  str_in (String sep EmptyString) s = negb (lacks sep s).
Proof.
  induction s as [|c rest IH]; [done|].
  cbn [str_in lacks String.prefix]. rewrite IH.
  destruct (ascii_dec sep c) as [<-|Hne].
  - rewrite Ascii.eqb_refl. by destruct rest.
  - assert (Ascii.eqb c sep = false) as -> by (apply Ascii.eqb_neq; congruence).
    done.
Qed.

Lemma split_on_cons (sep : ascii) (s : string) :
  ∃ first others, split_on sep s = first :: others.
Proof.
  destruct s as [|c rest]; [by eexists _, _|].
  cbn [split_on]. destruct (Ascii.eqb c sep); [by eexists _, _|].
  destruct (split_on sep rest); by eexists _, _.
Qed.

(** Joining the lines, each followed by a newline, gives the text followed
    by a newline. *)
Lemma join_split_lines (s : string) :
  String.concat "" ((λ line, line +:+ nl) <$> split_on newline s) = s +:+ nl.
Proof.
  induction s as [|c rest IH]; [done|].
  cbn [split_on]. destruct (Ascii.eqb c newline) eqn:Hc.
  - apply Ascii.eqb_eq in Hc as ->.
    rewrite fmap_cons, concat_empty_cons, IH. reflexivity.
  - destruct (split_on_cons newline rest) as (first & others & Hsplit).
    rewrite Hsplit in *.
    rewrite fmap_cons, concat_empty_cons in *.
    change ((String c first +:+ nl) +:+ ?x)
      with (String c ((first +:+ nl) +:+ x)).
    by rewrite IH.
Qed.

Lemma format_line_appended formatted line :
  appended (format_line formatted line)
  = appended formatted +:+ line +:+ nl.
Proof.
  unfold format_line.
  destruct (str_in ":" line && negb (String.prefix "http" (strip line)));
    [|by rewrite appended_app].
  unfold split_once.
  destruct (cut ":" line) as [[key value]|] eqn:Hcut;
    [|by rewrite appended_app].
  apply cut_spec in Hcut as [-> _].
  rewrite appended_app. unfold appended. cbn [fmap list_fmap fst].
  rewrite !concat_empty_cons. cbn [String.concat].
  rewrite append_empty_r, !append_assoc. reflexivity.
Qed.

Lemma fold_format_lines lines formatted :
  appended (fold_left format_line lines formatted)
  = appended formatted
      +:+ String.concat "" ((λ line, line +:+ nl) <$> lines).
Proof.
  revert formatted. induction lines as [|line lines IH]; intros formatted.
  - by rewrite append_empty_r.
  - cbn [fold_left]. rewrite IH, format_line_appended, fmap_cons,
      concat_empty_cons.
    by rewrite !append_assoc.
Qed.

(** X16.  [format_output] loses and invents no text: the pieces it appends
    to the [Text], put together, are the text that [remove_markdown_syntax]
    returned, followed by one newline. *)
Theorem format_output_text (text : string) :
  appended (format_output text) = remove_markdown_syntax text +:+ nl.
Proof.
  unfold format_output. rewrite fold_format_lines.
  by rewrite join_split_lines.
Qed.

(** X17.  A line that contains a colon and whose stripped text does not
    start with "http" is appended in two pieces: the text before its first
    colon with that colon, in bold cyan, and the rest with a newline,
    unstyled.  The split at the colon always gives two parts, so the branch
    for another number of parts is never taken. *)
Theorem format_line_highlight formatted line :
  str_in ":" line = true →
  String.prefix "http" (strip line) = false →
  ∃ key value,
    line = key +:+ ":" +:+ value
    ∧ str_in ":" key = false
    ∧ split_once ":" line = [key; value]
    ∧ format_line formatted line
      = formatted ++ [(key +:+ ":", Some "bold cyan"); (value +:+ nl, None)].
Proof.
  intros Hcolon Hhttp. unfold format_line, split_once.
  rewrite Hcolon, Hhttp. cbn [negb andb].
  destruct (cut ":" line) as [[key value]|] eqn:Hcut.
  - exists key, value. apply cut_spec in Hcut as [Hline Hkey].
    split; [done|]. split; [|done].
    by rewrite str_in_char, Hkey.
  - apply cut_none in Hcut. by rewrite str_in_char, Hcut in Hcolon.
Qed.

Lemma format_line_highlight_witness :
  ∃ key value,
    "Год: 1995" = key +:+ ":" +:+ value
    ∧ str_in ":" key = false
    ∧ split_once ":" "Год: 1995" = [key; value]
    ∧ format_line [] "Год: 1995"
      = [] ++ [(key +:+ ":", Some "bold cyan"); (value +:+ nl, None)].
Proof.
  apply (format_line_highlight [] "Год: 1995").
  - reflexivity.
  - reflexivity.
Defined.

(** ** [remove_markdown_syntax] *)

Lemma length_append (s1 s2 : string) :
  String.length (s1 +:+ s2) = String.length s1 + String.length s2.
Proof.
  induction s1 as [|c s1 IH]; [done|].
  change (S (String.length (s1 +:+ s2))
          = S (String.length s1 + String.length s2)).
  by rewrite IH.
Qed.

Lemma length_str_drop (n : nat) (s : string) :
  String.length (str_drop n s) = String.length s - n.
Proof.
  revert s. induction n as [|n IH]; intros [|c s]; simpl; done.
Qed.

Lemma prefix_length (D s : string) :
  String.prefix D s = true → String.length D ≤ String.length s.
Proof.
  revert s. induction D as [|d D IH]; intros s Hprefix; [simpl; lia|].
  destruct s as [|c s]; [done|]. cbn [String.prefix] in Hprefix.
  destruct (ascii_dec d c); [|done]. apply IH in Hprefix. simpl. lia.
Qed.

(** A pattern that starts with a character the text lacks matches nowhere. *)
Lemma prefix_lacks (d : ascii) (D s : string) :
  lacks d s = true → String.prefix (String d D) s = false.
Proof.
  destruct s as [|c s]; [done|]. cbn [lacks String.prefix].
  destruct (ascii_dec d c) as [->|Hne]; [|done].
  by rewrite Ascii.eqb_refl.
Qed.

Lemma lacks_tail (d c : ascii) (s : string) :
  lacks d (String c s) = true → lacks d s = true.
Proof. cbn [lacks]. by intros [_ ?]%andb_true_iff. Qed.

Lemma lacks_head (d c : ascii) (s : string) :
  lacks d (String c s) = true → Ascii.eqb c d = false.
Proof. cbn [lacks]. intros [H _]%andb_true_iff. by destruct (Ascii.eqb c d). Qed.

Lemma unwrap_lacks (d : ascii) (D s : string) :
  lacks d s = true → unwrap (String d D) s = s.
Proof.
  unfold unwrap. induction s as [|c s IH]; intros Hlacks; [done|].
  cbn [unwrap_go]. rewrite (prefix_lacks d D (String c s)) by done.
  rewrite IH; [done|]. by eapply lacks_tail.
Qed.

Lemma header_len_lacks (s : string) :
  lacks "#" s = true → header_len s = 0.
Proof.
  intros Hlacks. unfold header_len.
  destruct s as [|c s]; [done|].
  cbn [count_hashes]. by rewrite (lacks_head _ _ _ Hlacks).
Qed.

Lemma header_len_lacks_head (c : ascii) (s : string) :
  Ascii.eqb c "#" = false → header_len (String c s) = 0.
Proof. intros Hc. unfold header_len. cbn [count_hashes]. by rewrite Hc. Qed.

Lemma strip_headers_lacks (s : string) (bol : bool) :
  lacks "#" s = true → strip_headers_go 0 bol s = s.
Proof.
  revert bol. induction s as [|c s IH]; intros bol Hlacks; [done|].
  cbn [strip_headers_go]. rewrite header_len_lacks by done.
  rewrite IH by (by eapply lacks_tail). by destruct bol.
Qed.

Lemma unlink_lacks (s : string) : lacks "[" s = true → unlink s = s.
Proof.
  unfold unlink. induction s as [|c s IH]; intros Hlacks; [done|].
  cbn [unlink_go]. rewrite (lacks_head _ _ _ Hlacks).
  rewrite IH; [done|]. by eapply lacks_tail.
Qed.

(** X18.  [remove_markdown_syntax] leaves a text alone that contains none
    of the characters "*", "#", "`" and "[". *)
Theorem remove_markdown_syntax_plain (text : string) :
  plain text = true → remove_markdown_syntax text = text.
Proof.
  unfold plain. intros [[[Hstar Hhash]%andb_true_iff Htick]%andb_true_iff
                          Hbracket]%andb_true_iff.
  unfold remove_markdown_syntax, strip_headers.
  rewrite (unwrap_lacks "*" "*" text), (unwrap_lacks "*" "" text) by done.
  rewrite strip_headers_lacks by done.
  rewrite (unwrap_lacks "`" "" text) by done.
  by rewrite unlink_lacks.
Qed.

Lemma remove_markdown_syntax_plain_witness :
  remove_markdown_syntax "Год: 1995 (Heat)" = "Год: 1995 (Heat)".
Proof. apply remove_markdown_syntax_plain. vm_compute. reflexivity. Defined.

(** The passes never make the text longer. *)
Lemma find_close_length (D s inner : string) :
  find_close D s = Some inner →
  String.length inner + String.length D ≤ String.length s.
Proof.
  revert inner. induction s as [|c s IH]; intros inner Hfind.
  - cbn [find_close] in Hfind.
    destruct (String.prefix D "") eqn:Hprefix; [|done].
    apply prefix_length in Hprefix. simplify_eq. simpl in *. lia.
  - cbn [find_close] in Hfind.
    destruct (String.prefix D (String c s)) eqn:Hprefix.
    { apply prefix_length in Hprefix. simplify_eq. simpl in *. lia. }
    destruct (Ascii.eqb c newline); [done|].
    destruct (find_close D s) as [inner'|] eqn:Hrest; [|done].
    simplify_eq. specialize (IH inner' eq_refl). simpl. lia.
Qed.

Lemma unwrap_go_length (D : string) (skip : nat) (s : string) :
  String.length (unwrap_go D skip s) ≤ String.length s - skip.
Proof.
  revert skip. induction s as [|c s IH]; intros skip; [simpl; lia|].
  cbn [unwrap_go]. destruct skip as [|k].
  - destruct (String.prefix D (String c s)) eqn:Hprefix.
    + destruct (find_close D _) as [inner|] eqn:Hfind.
      * apply find_close_length in Hfind.
        apply prefix_length in Hprefix.
        rewrite length_str_drop in Hfind.
        rewrite length_append. specialize (IH (2 * String.length D
          + String.length inner - 1)). simpl in *. lia.
      * specialize (IH 0). simpl in *. lia.
    + specialize (IH 0). simpl in *. lia.
  - specialize (IH k). simpl in *. lia.
Qed.

Lemma strip_headers_go_length (skip : nat) (bol : bool) (s : string) :
  String.length (strip_headers_go skip bol s) ≤ String.length s - skip.
Proof.
  revert skip bol. induction s as [|c s IH]; intros skip bol; [simpl; lia|].
  cbn [strip_headers_go]. destruct skip as [|k].
  - destruct (if bol then header_len (String c s) else 0) as [|m].
    + specialize (IH 0 (Ascii.eqb c newline)). simpl in *. lia.
    + specialize (IH m (Ascii.eqb c newline)). simpl in *. lia.
  - specialize (IH k (Ascii.eqb c newline)). simpl in *. lia.
Qed.

Lemma find_paren_length (s : string) (n : nat) :
  find_paren s = Some n → n ≤ String.length s.
Proof.
  revert n. induction s as [|c s IH]; intros n Hfind; [done|].
  cbn [find_paren] in Hfind.
  destruct (Ascii.eqb c newline); [done|].
  destruct (Ascii.eqb c ")"); [simplify_eq; simpl; lia|].
  destruct (find_paren s) as [n'|]; [|done].
  simplify_eq. specialize (IH n' eq_refl). simpl. lia.
Qed.

Lemma find_link_length (s inner : string) (used : nat) :
  find_link s = Some (inner, used) →
  String.length inner ≤ used ∧ used ≤ String.length s.
Proof.
  revert inner used. induction s as [|c s IH]; intros inner used Hfind.
  - cbn [find_link] in Hfind. by destruct (String.prefix "](" "").
  - cbn [find_link] in Hfind.
    destruct (if String.prefix "](" (String c s) then _ else None)
      as [url|] eqn:Hurl.
    { simplify_eq. destruct (String.prefix "](" (String c s)) eqn:Hprefix;
        [|done].
      apply find_paren_length in Hurl. apply prefix_length in Hprefix.
      rewrite length_str_drop in Hurl. simpl in *. lia. }
    destruct (Ascii.eqb c newline); [done|].
    destruct (find_link s) as [[inner' used']|]; [|done].
    simplify_eq. destruct (IH inner' used' eq_refl). simpl. lia.
Qed.

Lemma unlink_go_length (skip : nat) (s : string) :
  String.length (unlink_go skip s) ≤ String.length s - skip.
Proof.
  revert skip. induction s as [|c s IH]; intros skip; [simpl; lia|].
  cbn [unlink_go]. destruct skip as [|k].
  - destruct (Ascii.eqb c "[").
    + destruct (find_link s) as [[inner used]|] eqn:Hfind.
      * apply find_link_length in Hfind as [? ?].
        rewrite length_append. specialize (IH used). simpl in *. lia.
      * specialize (IH 0). simpl in *. lia.
    + specialize (IH 0). simpl in *. lia.
  - specialize (IH k). simpl in *. lia.
Qed.

(** X19.  [remove_markdown_syntax] only removes: its result is never longer
    than the text it is given. *)
Theorem remove_markdown_syntax_length (text : string) :
  String.length (remove_markdown_syntax text) ≤ String.length text.
Proof.
  unfold remove_markdown_syntax, unwrap, strip_headers, unlink.
  pose proof (unwrap_go_length "**" 0 text).
  pose proof (unwrap_go_length "*" 0 (unwrap_go "**" 0 text)).
  pose proof (strip_headers_go_length 0 true
                (unwrap_go "*" 0 (unwrap_go "**" 0 text))).
  pose proof (unwrap_go_length "`" 0
                (strip_headers_go 0 true
                   (unwrap_go "*" 0 (unwrap_go "**" 0 text)))).
  pose proof (unlink_go_length 0
                (unwrap_go "`" 0
                   (strip_headers_go 0 true
                      (unwrap_go "*" 0 (unwrap_go "**" 0 text))))).
  lia.
Qed.

(** *** The markers around plain text *)

Lemma append_cons (c : ascii) (s1 s2 : string) :
  String c s1 +:+ s2 = String c (s1 +:+ s2).
Proof. reflexivity. Qed.

Lemma lacks_app (d : ascii) (s1 s2 : string) :
  lacks d (s1 +:+ s2) = lacks d s1 && lacks d s2.
Proof.
  induction s1 as [|c s1 IH]; [done|].
  rewrite append_cons. cbn [lacks]. by rewrite IH, andb_assoc.
Qed.

Lemma plain_app (s1 s2 : string) :
  plain (s1 +:+ s2) = plain s1 && plain s2.
Proof.
  unfold plain. rewrite !lacks_app.
  destruct (lacks "*" s1), (lacks "#" s1), (lacks "`" s1), (lacks "[" s1),
    (lacks "*" s2), (lacks "#" s2), (lacks "`" s2); done.
Qed.

Lemma plain_lacks (s : string) :
  plain s = true →
  lacks "*" s = true ∧ lacks "#" s = true ∧ lacks "`" s = true
  ∧ lacks "[" s = true.
Proof.
  unfold plain. intros [[[? ?]%andb_true_iff ?]%andb_true_iff ?]%andb_true_iff.
  done.
Qed.

Lemma prefix_app (D s : string) : String.prefix D (D +:+ s) = true.
Proof.
  induction D as [|d D IH]; [by destruct s|].
  rewrite append_cons. cbn [String.prefix].
  by destruct (ascii_dec d d).
Qed.

Lemma str_drop_app (D s : string) : str_drop (String.length D) (D +:+ s) = s.
Proof. induction D as [|d D IH]; [by destruct s|done]. Qed.

Lemma unwrap_go_app_lacks (d : ascii) (D pre s : string) :
  lacks d pre = true →
  unwrap_go (String d D) 0 (pre +:+ s) = pre +:+ unwrap_go (String d D) 0 s.
Proof.
  induction pre as [|c pre IH]; intros Hlacks; [done|].
  rewrite !append_cons. cbn [unwrap_go].
  assert (String.prefix (String d D) (String c (pre +:+ s)) = false) as ->.
  { cbn [String.prefix]. destruct (ascii_dec d c) as [->|]; [|done].
    apply lacks_head in Hlacks. by rewrite Ascii.eqb_refl in Hlacks. }
  rewrite IH; [done|]. by eapply lacks_tail.
Qed.

Lemma unwrap_go_skip (D a s : string) :
  unwrap_go D (String.length a) (a +:+ s) = unwrap_go D 0 s.
Proof.
  induction a as [|c a IH]; [done|].
  rewrite append_cons. by cbn [unwrap_go String.length].
Qed.

Lemma find_close_inner (d : ascii) (D inner s : string) :
  lacks d inner = true →
  lacks newline inner = true →
  find_close (String d D) (inner +:+ String d D +:+ s) = Some inner.
Proof.
  induction inner as [|c inner IH]; intros Hd Hnl.
  - change ("" +:+ String d D +:+ s) with (String d D +:+ s).
    destruct (String d D +:+ s) as [|c' s'] eqn:Heq; [done|].
    cbn [find_close]. rewrite <- Heq. by rewrite prefix_app.
  - rewrite append_cons. cbn [find_close].
    assert (String.prefix (String d D) (String c (inner +:+ String d D +:+ s))
            = false) as ->.
    { cbn [String.prefix]. destruct (ascii_dec d c) as [->|]; [|done].
      apply lacks_head in Hd. by rewrite Ascii.eqb_refl in Hd. }
    rewrite (lacks_head _ _ _ Hnl).
    rewrite IH; [done|by eapply lacks_tail..].
Qed.

(** One pass on a span wrapped in the delimiter, behind text without the
    delimiter's first character. *)
Lemma unwrap_wrapped (d : ascii) (D pre inner post : string) :
  lacks d pre = true →
  lacks d inner = true →
  lacks newline inner = true →
  unwrap (String d D)
    (pre +:+ String d D +:+ inner +:+ String d D +:+ post)
  = pre +:+ inner +:+ unwrap (String d D) post.
Proof.
  intros Hpre Hinner Hnl. unfold unwrap.
  rewrite unwrap_go_app_lacks by done. f_equal.
  rewrite append_cons. cbn [unwrap_go].
  rewrite <- append_cons, prefix_app, str_drop_app.
  rewrite find_close_inner by done. f_equal.
  rewrite <- (unwrap_go_skip (String d D) (D +:+ inner +:+ String d D) post).
  rewrite !append_assoc. f_equal.
  rewrite !length_append. simpl. lia.
Qed.

(** The passes behind the first leave plain text alone. *)
Lemma later_passes_plain (s : string) :
  plain s = true →
  unlink (unwrap "`" (strip_headers (unwrap "*" s))) = s.
Proof.
  intros (Hstar & Hhash & Htick & Hbracket)%plain_lacks.
  unfold strip_headers.
  rewrite (unwrap_lacks "*" "" s) by done.
  rewrite strip_headers_lacks by done.
  rewrite (unwrap_lacks "`" "" s) by done.
  by rewrite unlink_lacks.
Qed.

(** X20.  Bold.  In a text that is otherwise plain, a span of plain text
    without a newline between two "**" loses its markers and keeps its
    text. *)
Theorem remove_markdown_syntax_bold (pre inner post : string) :
  plain pre = true →
  plain inner = true →
  lacks newline inner = true →
  plain post = true →
  remove_markdown_syntax (pre +:+ "**" +:+ inner +:+ "**" +:+ post)
  = pre +:+ inner +:+ post.
Proof.
  intros Hpre Hinner Hnl Hpost. unfold remove_markdown_syntax.
  pose proof (plain_lacks _ Hpre) as (? & _).
  pose proof (plain_lacks _ Hinner) as (? & _).
  pose proof (plain_lacks _ Hpost) as (? & _).
  rewrite (unwrap_wrapped "*" "*") by done.
  rewrite (unwrap_lacks "*" "*" post) by done.
  apply later_passes_plain.
  by rewrite !plain_app, Hpre, Hinner, Hpost.
Qed.

Lemma remove_markdown_syntax_bold_witness :
  remove_markdown_syntax
    ("Film: " +:+ "**" +:+ "The Green Mile" +:+ "**" +:+ " (1999)")
  = "Film: " +:+ "The Green Mile" +:+ " (1999)".
Proof.
  apply remove_markdown_syntax_bold; vm_compute; reflexivity.
Defined.

(** the passes behind the second leave plain text alone *)
Lemma last_passes_plain (s : string) :
  plain s = true → unlink (unwrap "`" (strip_headers s)) = s.
Proof.
  intros (Hstar & Hhash & Htick & Hbracket)%plain_lacks.
  unfold strip_headers.
  rewrite strip_headers_lacks by done.
  rewrite (unwrap_lacks "`" "" s) by done.
  by rewrite unlink_lacks.
Qed.

Lemma find_close_lacks (d : ascii) (D s : string) :
  lacks d s = true → find_close (String d D) s = None.
Proof.
  induction s as [|c s IH]; intros Hlacks; [done|].
  cbn [find_close]. rewrite prefix_lacks by done.
  rewrite IH by (by eapply lacks_tail).
  by destruct (Ascii.eqb c newline).
Qed.

Lemma unwrap_go_cons (D : string) (c : ascii) (rest : string) :
  unwrap_go D 0 (String c rest)
  = if String.prefix D (String c rest) then
      match find_close D (str_drop (String.length D) (String c rest)) with
      | Some inner =>
          inner +:+ unwrap_go D
                      (2 * String.length D + String.length inner - 1) rest
      | None => String c (unwrap_go D 0 rest)
      end
    else String c (unwrap_go D 0 rest).
Proof. reflexivity. Qed.

Lemma prefix_bold_single_star (s : string) :
  lacks "*" s = true → String.prefix "**" (String "*" s) = false.
Proof.
  intros Hlacks. destruct s as [|c s]; [done|].
  cbn [String.prefix]. destruct (ascii_dec "*" "*"); [|done].
  destruct (ascii_dec "*" c) as [<-|]; [|done].
  apply lacks_head in Hlacks. by rewrite Ascii.eqb_refl in Hlacks.
Qed.

(** The bold pass leaves two single stars alone. *)
Lemma unwrap_bold_single_stars (pre inner post : string) :
  lacks "*" pre = true →
  lacks "*" inner = true →
  lacks "*" post = true →
  unwrap "**" (pre +:+ "*" +:+ inner +:+ "*" +:+ post)
  = pre +:+ "*" +:+ inner +:+ "*" +:+ post.
Proof.
  intros Hpre Hinner Hpost. unfold unwrap.
  rewrite unwrap_go_app_lacks by done. f_equal.
  assert (unwrap_go "**" 0 (String "*" post) = String "*" post) as Hlast.
  { rewrite unwrap_go_cons, prefix_bold_single_star by done.
    f_equal. by apply (unwrap_lacks "*" "*"). }
  destruct inner as [|c inner].
  - change ("*" +:+ "" +:+ "*" +:+ post) with (String "*" (String "*" post)).
    rewrite unwrap_go_cons.
    change (str_drop (String.length "**") (String "*" (String "*" post)))
      with post.
    rewrite find_close_lacks by done. rewrite Hlast.
    by destruct (String.prefix _ _).
  - change ("*" +:+ String c inner +:+ "*" +:+ post)
      with (String "*" (String c inner +:+ String "*" post)).
    rewrite unwrap_go_cons.
    assert (String.prefix "**"
              (String "*" (String c inner +:+ String "*" post)) = false)
      as ->.
    { rewrite append_cons. cbn [String.prefix].
      destruct (ascii_dec "*" "*"); [|done].
      destruct (ascii_dec "*" c) as [<-|]; [|done].
      apply lacks_head in Hinner. by rewrite Ascii.eqb_refl in Hinner. }
    rewrite unwrap_go_app_lacks by done. by rewrite Hlast.
Qed.

(** X21.  Italic.  In a text that is otherwise plain, a span of plain text
    without a newline between two "*" loses its markers and keeps its
    text. *)
Theorem remove_markdown_syntax_italic (pre inner post : string) :
  plain pre = true →
  plain inner = true →
  lacks newline inner = true →
  plain post = true →
  remove_markdown_syntax (pre +:+ "*" +:+ inner +:+ "*" +:+ post)
  = pre +:+ inner +:+ post.
Proof.
  intros Hpre Hinner Hnl Hpost. unfold remove_markdown_syntax.
  pose proof (plain_lacks _ Hpre) as (? & _).
  pose proof (plain_lacks _ Hinner) as (? & _).
  pose proof (plain_lacks _ Hpost) as (? & _).
  rewrite unwrap_bold_single_stars by done.
  rewrite (unwrap_wrapped "*" "") by done.
  rewrite (unwrap_lacks "*" "" post) by done.
  apply last_passes_plain.
  by rewrite !plain_app, Hpre, Hinner, Hpost.
Qed.

Lemma remove_markdown_syntax_italic_witness :
  remove_markdown_syntax ("a " +:+ "*" +:+ "classic" +:+ "*" +:+ " film")
  = "a " +:+ "classic" +:+ " film".
Proof.
  apply remove_markdown_syntax_italic; vm_compute; reflexivity.
Defined.

(** X22.  Inline code.  In a text that is otherwise plain, a span of plain
    text without a newline between two backquotes loses its markers and
    keeps its text. *)
Theorem remove_markdown_syntax_code (pre inner post : string) :
  plain pre = true →
  plain inner = true →
  lacks newline inner = true →
  plain post = true →
  remove_markdown_syntax (pre +:+ "`" +:+ inner +:+ "`" +:+ post)
  = pre +:+ inner +:+ post.
Proof.
  intros Hpre Hinner Hnl Hpost. unfold remove_markdown_syntax.
  pose proof (plain_lacks _ Hpre) as (? & ? & ? & ?).
  pose proof (plain_lacks _ Hinner) as (? & ? & ? & ?).
  pose proof (plain_lacks _ Hpost) as (? & ? & ? & ?).
  rewrite (unwrap_lacks "*" "*"), (unwrap_lacks "*" "")
    by (rewrite !lacks_app; repeat (apply andb_true_iff; split); done).
  unfold strip_headers. rewrite strip_headers_lacks
    by (rewrite !lacks_app; repeat (apply andb_true_iff; split); done).
  rewrite (unwrap_wrapped "`" "") by done.
  rewrite (unwrap_lacks "`" "" post) by done.
  apply unlink_lacks.
  rewrite !lacks_app; repeat (apply andb_true_iff; split); done.
Qed.

Lemma remove_markdown_syntax_code_witness :
  remove_markdown_syntax ("id " +:+ "`" +:+ "tt0111161" +:+ "`" +:+ ".")
  = "id " +:+ "tt0111161" +:+ ".".
Proof.
  apply remove_markdown_syntax_code; vm_compute; reflexivity.
Defined.

(** *** Links *)

Lemma find_paren_url (url s : string) :
  lacks ")" url = true →
  lacks newline url = true →
  find_paren (url +:+ ")" +:+ s) = Some (S (String.length url)).
Proof.
  induction url as [|c url IH]; intros Hparen Hnl; [done|].
  rewrite append_cons. cbn [find_paren].
  rewrite (lacks_head _ _ _ Hnl), (lacks_head _ _ _ Hparen).
  rewrite IH; [done|by eapply lacks_tail..].
Qed.

Lemma find_link_text (text url s : string) :
  lacks "]" text = true →
  lacks newline text = true →
  lacks ")" url = true →
  lacks newline url = true →
  find_link (text +:+ "](" +:+ url +:+ ")" +:+ s)
  = Some (text, String.length text + (2 + S (String.length url))).
Proof.
  intros Hbracket Hnl Hparen Hnl'.
  induction text as [|c text IH].
  - change ("" +:+ "](" +:+ url +:+ ")" +:+ s)
      with (String "]" (String "(" (url +:+ ")" +:+ s))).
    cbn [find_link String.prefix str_drop].
    destruct (ascii_dec "]" "]"); [|done].
    destruct (ascii_dec "(" "("); [|done].
    assert (String.prefix "" (url +:+ ")" +:+ s) = true) as ->
      by (by destruct (url +:+ ")" +:+ s)).
    by rewrite find_paren_url.
  - rewrite append_cons. cbn [find_link].
    assert (String.prefix "](" (String c (text +:+ "](" +:+ url +:+ ")" +:+ s))
            = false) as ->.
    { cbn [String.prefix]. destruct (ascii_dec "]" c) as [<-|]; [|done].
      by apply lacks_head in Hbracket. }
    rewrite (lacks_head _ _ _ Hnl).
    rewrite IH; [done|by eapply lacks_tail..].
Qed.

Lemma unlink_go_app_lacks (pre s : string) :
  lacks "[" pre = true → unlink_go 0 (pre +:+ s) = pre +:+ unlink_go 0 s.
Proof.
  induction pre as [|c pre IH]; intros Hlacks; [done|].
  rewrite !append_cons. cbn [unlink_go]. rewrite (lacks_head _ _ _ Hlacks).
  rewrite IH; [done|]. by eapply lacks_tail.
Qed.

Lemma unlink_go_skip (a s : string) :
  unlink_go (String.length a) (a +:+ s) = unlink_go 0 s.
Proof.
  induction a as [|c a IH]; [done|].
  rewrite append_cons. by cbn [unlink_go String.length].
Qed.

(** X23.  Links.  In a text that is otherwise plain, a link
    "[text](url)" whose text is plain without "]" and whose address is
    plain without ")", both without a newline, is replaced by its text. *)
Theorem remove_markdown_syntax_link (pre text url post : string) :
  plain pre = true →
  plain text = true →
  lacks "]" text = true →
  lacks newline text = true →
  plain url = true →
  lacks ")" url = true →
  lacks newline url = true →
  plain post = true →
  remove_markdown_syntax
    (pre +:+ "[" +:+ text +:+ "](" +:+ url +:+ ")" +:+ post)
  = pre +:+ text +:+ post.
Proof.
  intros Hpre Htext Hbracket Hnl Hurl Hparen Hnl' Hpost.
  unfold remove_markdown_syntax.
  pose proof (plain_lacks _ Hpre) as (? & ? & ? & ?).
  pose proof (plain_lacks _ Htext) as (? & ? & ? & ?).
  pose proof (plain_lacks _ Hurl) as (? & ? & ? & ?).
  pose proof (plain_lacks _ Hpost) as (? & ? & ? & ?).
  rewrite (unwrap_lacks "*" "*"), (unwrap_lacks "*" "")
    by (rewrite !lacks_app; repeat (apply andb_true_iff; split); done).
  unfold strip_headers. rewrite strip_headers_lacks
    by (rewrite !lacks_app; repeat (apply andb_true_iff; split); done).
  rewrite (unwrap_lacks "`" "")
    by (rewrite !lacks_app; repeat (apply andb_true_iff; split); done).
  unfold unlink. rewrite unlink_go_app_lacks by done. f_equal.
  rewrite append_cons. cbn [unlink_go Ascii.eqb Bool.eqb].
  change ("" +:+ text +:+ "](" +:+ url +:+ ")" +:+ post)
    with (text +:+ "](" +:+ url +:+ ")" +:+ post).
  rewrite find_link_text by done. f_equal.
  replace (text +:+ "](" +:+ url +:+ ")" +:+ post)
    with ((text +:+ "](" +:+ url +:+ ")") +:+ post)
    by (by rewrite !append_assoc).
  replace (String.length text + (2 + S (String.length url)))
    with (String.length (text +:+ "](" +:+ url +:+ ")"))
    by (rewrite !length_append; simpl; lia).
  rewrite unlink_go_skip. by apply unlink_lacks.
Qed.

Lemma remove_markdown_syntax_link_witness :
  remove_markdown_syntax
    ("see " +:+ "[" +:+ "IMDb" +:+ "](" +:+ "https://www.imdb.com/"
       +:+ ")" +:+ " now")
  = "see " +:+ "IMDb" +:+ " now".
Proof.
  apply remove_markdown_syntax_link; vm_compute; reflexivity.
Defined.

(** *** Headers *)

Lemma strip_headers_go_cons (bol : bool) (c : ascii) (rest : string) :
  strip_headers_go 0 bol (String c rest)
  = match (if bol then header_len (String c rest) else 0) with
    | S m => strip_headers_go m (Ascii.eqb c newline) rest
    | O => String c (strip_headers_go 0 (Ascii.eqb c newline) rest)
    end.
Proof. reflexivity. Qed.

Lemma length_hashes (h : nat) : String.length (hashes h) = h.
Proof. induction h as [|h IH]; [done|]. simpl. by rewrite IH. Qed.

Lemma lacks_hashes (d : ascii) (h : nat) :
  Ascii.eqb "#" d = false → lacks d (hashes h) = true.
Proof.
  intros Hd. induction h as [|h IH]; [done|].
  cbn [hashes lacks]. by rewrite Hd, IH.
Qed.

Lemma count_hashes_hashes (h : nat) (s : string) :
  count_hashes s = 0 → count_hashes (hashes h +:+ s) = h.
Proof.
  intros Hs. induction h as [|h IH]; [done|].
  cbn [hashes]. rewrite append_cons. cbn [count_hashes].
  by rewrite Ascii.eqb_refl, IH.
Qed.

Lemma str_drop_hashes (h : nat) (s : string) :
  str_drop h (hashes h +:+ s) = s.
Proof. induction h as [|h IH]; [by destruct s|done]. Qed.

Lemma spaces_run_none (s : string) : space_len s = 0 → spaces_run 0 s = 0.
Proof.
  intros Hs. destruct s as [|c s]; [done|]. cbn [spaces_run]. by rewrite Hs.
Qed.

Lemma header_len_marker (h : nat) (title : string) :
  1 ≤ h ≤ 6 →
  space_len title = 0 →
  header_len (hashes h +:+ " " +:+ title) = S h.
Proof.
  intros Hh Htitle. unfold header_len.
  rewrite count_hashes_hashes by done.
  rewrite bool_decide_eq_true_2 by done.
  rewrite str_drop_hashes.
  change (" " +:+ title) with (String " " title).
  cbn [spaces_run space_len]. change (space1 " ") with true. cbv iota.
  rewrite spaces_run_none by done. lia.
Qed.

Lemma strip_headers_go_skip (a s : string) (bol : bool) :
  lacks "#" s = true →
  strip_headers_go (String.length a) bol (a +:+ s) = s.
Proof.
  intros Hs. revert bol. induction a as [|c a IH]; intros bol.
  - by apply strip_headers_lacks.
  - rewrite append_cons. cbn [strip_headers_go String.length]. apply IH.
Qed.

Lemma strip_headers_go_lines (p s : string) (bol : bool) :
  lacks "#" p = true →
  strip_headers_go 0 bol (p +:+ nl +:+ s)
  = p +:+ nl +:+ strip_headers_go 0 true s.
Proof.
  intros Hp. revert bol. induction p as [|c p IH]; intros bol.
  - change ("" +:+ nl +:+ s) with (String newline s).
    rewrite strip_headers_go_cons.
    change (header_len (String newline s)) with 0.
    by destruct bol.
  - rewrite !append_cons, strip_headers_go_cons.
    rewrite header_len_lacks_head by (by eapply lacks_head).
    rewrite IH by (by eapply lacks_tail). by destruct bol.
Qed.

(** X24.  Headers.  At the start of the text or of a line, one to six "#"
    and the space behind them are removed from in front of a plain title
    that does not start with whitespace; the plain lines before stay as
    they are. *)
Theorem remove_markdown_syntax_header (before title : string) (h : nat) :
  plain before = true →
  before = "" ∨ (∃ lines, before = lines +:+ nl) →
  1 ≤ h ≤ 6 →
  plain title = true →
  space_len title = 0 →
  remove_markdown_syntax (before +:+ hashes h +:+ " " +:+ title)
  = before +:+ title.
Proof.
  intros Hbefore Hstart Hh Htitle Hspace. unfold remove_markdown_syntax.
  pose proof (plain_lacks _ Hbefore) as (? & ? & ? & ?).
  pose proof (plain_lacks _ Htitle) as (? & ? & ? & ?).
  rewrite (unwrap_lacks "*" "*"), (unwrap_lacks "*" "")
    by (rewrite !lacks_app, lacks_hashes by done;
        repeat (apply andb_true_iff; split); done).
  assert (strip_headers_go 0 true (hashes h +:+ " " +:+ title) = title)
    as Hmarker.
  { destruct h as [|h]; [lia|].
    change (hashes (S h) +:+ " " +:+ title)
      with (String "#" (hashes h +:+ " " +:+ title)).
    rewrite strip_headers_go_cons.
    change (String "#" (hashes h +:+ " " +:+ title))
      with (hashes (S h) +:+ " " +:+ title).
    rewrite header_len_marker by done.
    replace (hashes h +:+ " " +:+ title) with ((hashes h +:+ " ") +:+ title)
      by (by rewrite append_assoc).
    replace (S h) with (String.length (hashes h +:+ " "))
      by (rewrite length_append, length_hashes; simpl; lia).
    by apply strip_headers_go_skip. }
  assert (strip_headers (before +:+ hashes h +:+ " " +:+ title)
          = before +:+ title) as ->.
  { unfold strip_headers. destruct Hstart as [->|(lines & ->)].
    - exact Hmarker.
    - rewrite lacks_app in H0. apply andb_true_iff in H0 as [Hlines _].
      rewrite !append_assoc.
      rewrite strip_headers_go_lines by done. by rewrite Hmarker. }
  rewrite (unwrap_lacks "`" "")
    by (rewrite !lacks_app; repeat (apply andb_true_iff; split); done).
  apply unlink_lacks.
  rewrite !lacks_app; repeat (apply andb_true_iff; split); done.
Qed.

Lemma remove_markdown_syntax_header_witness :
  remove_markdown_syntax
    (("Top films:" +:+ nl) +:+ hashes 3 +:+ " " +:+ "The Green Mile")
  = ("Top films:" +:+ nl) +:+ "The Green Mile".
Proof.
  apply remove_markdown_syntax_header.
  - vm_compute. reflexivity.
  - right. by exists "Top films:".
  - lia.
  - vm_compute. reflexivity.
  - vm_compute. reflexivity.
Defined.
